(** * The Owl: a flying badguy that carries a portable object

    A shallow embedding of [src/badguy/owl.cpp].  The methods of the class
    [Owl] are written in a small state monad over a [World] that holds the
    Owl itself, the objects owned by the sector, the chronological list
    of calls the Owl made on its collaborators and, for each call, the
    carried-object reference the Owl had when it made it.  Numbers are C++
    [float]s: IEEE 754 binary32 values, computed with the operations of
    [SpecFloat]. *)

From Stdlib Require Import ZArith List String Bool.
From Stdlib Require Import Floats.SpecFloat.
Import ListNotations.

Set Implicit Arguments.

(** ** Single precision floating point numbers *)

Module Float32.

Definition prec : Z := 24.
Definition emax : Z := 128.

Definition float : Type := spec_float.

(** Conversion of an integer literal ([16], [0]) or of an integral float
    literal ([120.0f], [16.f]) to binary32. *)
Definition of_int (z : Z) : float := binary_normalize prec emax z 0 false.

Definition neg : float -> float := SFopp.
Definition add : float -> float -> float := SFadd prec emax.
Definition sub : float -> float -> float := SFsub prec emax.
Definition ltb : float -> float -> bool := SFltb.
Definition leb : float -> float -> bool := SFleb.
Definition gtb (a b : float) : bool := SFltb b a.
Definition geb (a b : float) : bool := SFleb b a.

End Float32.

Definition float : Type := Float32.float.

Declare Scope f32_scope.
Delimit Scope f32_scope with f32.
Notation "a + b" := (Float32.add a b) : f32_scope.
Notation "a - b" := (Float32.sub a b) : f32_scope.
Notation "- a" := (Float32.neg a) : f32_scope.
Notation "a <? b" := (Float32.ltb a b) : f32_scope.
Notation "a <=? b" := (Float32.leb a b) : f32_scope.
Notation "a >? b" := (Float32.gtb a b) : f32_scope.
Notation "a >=? b" := (Float32.geb a b) : f32_scope.

(** The constants of the anonymous namespace. *)
Definition FLYING_SPEED : float := Float32.of_int 120.
Definition ACTIVATION_DISTANCE : float := Float32.of_int 128.

(** ** Geometry and the data the Owl works on *)

Record Vector : Type := mkVector { x : float; y : float }.

(** [Rectf]: [p1] is the upper left corner, [p2] the lower right one; the y
    axis points down, so [y (p2 r)] is the bottom edge. *)
Record Rectf : Type := mkRectf { p1 : Vector; p2 : Vector }.

(** Modelled from the spec: the declaration of [Direction] is not part of
    this file; the data model has "direction: enum {Left, Right}". *)
Inductive Direction : Type := LEFT | RIGHT.

Definition Direction_eqb (a b : Direction) : bool :=
  match a, b with
  | LEFT, LEFT | RIGHT, RIGHT => true
  | _, _ => false
  end.

Record CollisionHit : Type := mkCollisionHit {
  left : bool;
  right : bool;
  top : bool;
  bottom : bool
}.

(** Only [ANCHOR_BOTTOM] is used by the Owl. *)
Inductive AnchorPoint : Type := ANCHOR_BOTTOM.

(** The part of [Physic] the Owl writes. *)
Record Physic : Type := mkPhysic {
  velocity_x : float;
  velocity_y : float;
  acceleration_y : float;
  gravity_enabled : bool
}.

(** The states of a badguy are declared with the base class.  The Owl
    names [STATE_FALLING] only; [STATE_ACTIVE] stands for the state of a
    badguy that is up and flying. *)
Inductive State : Type := STATE_ACTIVE | STATE_FALLING.

(** The members of the base class [BadGuy] that the Owl reads or writes:
    [m_bbox] stands for [m_col.m_bbox], [m_action] for the action of
    [m_sprite]. *)
Record BadGuy : Type := mkBadGuy {
  m_dir : Direction;
  m_frozen : bool;
  m_physic : Physic;
  m_bbox : Rectf;
  m_action : string;
  m_state : State
}.

(** A game object as the factory hands it out.  [go_portable] tells whether
    its dynamic type implements [Portable], which is what
    [dynamic_cast<Portable*>] tests. *)
Record GameObject : Type := mkGameObject {
  go_class : string;
  go_pos : Vector;
  go_dir : Direction;
  go_portable : bool
}.

Definition dynamic_cast_Portable (g : GameObject) : option GameObject :=
  if go_portable g then Some g else None.

Record Player : Type := mkPlayer { get_bbox : Rectf }.

(** The Owl: its [BadGuy] sub-object and its two private members.
    [carried_object] is the raw pointer, [None] for [nullptr]. *)
Record Owl : Type := mkOwl {
  badguy : BadGuy;
  carried_obj_name : string;
  carried_object : option GameObject
}.

(** ** Calls on collaborators

    Every call that leaves the class is recorded, with its arguments.  A
    call that receives [*this] records the [BadGuy] sub-object as it is at
    the moment of the call; the callee is taken not to write to it. *)
Inductive Call : Type :=
| Portable_grab (obj : GameObject) (holder : BadGuy) (pos : Vector)
    (dir : Direction)
| Portable_ungrab (obj : GameObject) (holder : BadGuy) (dir : Direction)
| Player_bounce (player : Player) (holder : BadGuy)
| SoundManager_play (file : string) (pos : Vector)
| run_dead_script
| log_fatal (msg : string)
| log_warning (msg : string)
| Sector_add_object (obj : GameObject)
| Writer_write (key value : string)
| Base_save
| Base_active_update (dt_sec : float)
| Base_freeze
| Base_unfreeze
| Base_ignite
| Base_collision_solid (hit : CollisionHit).

(** [carried_at_call] has one entry for each entry of [calls], in the
    same order: the carried-object reference of the Owl at the moment the
    call is made, which is what the callee finds if it calls back into
    the Owl. *)
Record World : Type := mkWorld {
  owl : Owl;
  sector_objects : list GameObject;
  calls : list Call;
  carried_at_call : list (option GameObject)
}.

(** The collaborators whose code lives outside this file.  The methods of
    the base class act on the [BadGuy] sub-object: [carried_object] is a
    private member of [Owl]. *)
Record Collaborators : Type := mkCollaborators {
  Editor_is_active : bool;
  GameObjectFactory_create : string -> Vector -> Direction -> option GameObject;
  Sector_get_nearest_player : Rectf -> option Player;
  Sector_get_width : float;
  get_anchor_pos : Rectf -> AnchorPoint -> Vector;
  get_pos : BadGuy -> Vector;
  BadGuy_active_update : float -> BadGuy -> BadGuy;
  BadGuy_freeze : BadGuy -> BadGuy;
  BadGuy_unfreeze : BadGuy -> BadGuy;
  BadGuy_ignite : BadGuy -> BadGuy;
  BadGuy_collision_solid : CollisionHit -> BadGuy -> BadGuy
}.

(** ** The state monad of the methods *)

Definition M (A : Type) : Type := World -> A * World.

Definition ret {A : Type} (a : A) : M A := fun w => (a, w).

Definition bind {A B : Type} (c : M A) (k : A -> M B) : M B :=
  fun w => let (a, w') := c w in k a w'.

Declare Scope owl_scope.
Delimit Scope owl_scope with owl.
Notation "v <- c ;; k" := (bind c (fun v => k))
  (at level 61, c at next level, right associativity) : owl_scope.
Notation "c ;; k" := (bind c (fun _ => k))
  (at level 61, right associativity) : owl_scope.

Definition exec {A : Type} (c : M A) (w : World) : World := snd (c w).
Definition eval {A : Type} (c : M A) (w : World) : A := fst (c w).

Definition this : M Owl := fun w => (owl w, w).

Definition this_badguy : M BadGuy := fun w => (badguy (owl w), w).

Definition update_badguy (f : BadGuy -> BadGuy) : M unit :=
  fun w =>
    (tt, mkWorld (mkOwl (f (badguy (owl w)))
                        (carried_obj_name (owl w))
                        (carried_object (owl w)))
                 (sector_objects w) (calls w) (carried_at_call w)).

Definition set_carried_object (p : option GameObject) : M unit :=
  fun w =>
    (tt, mkWorld (mkOwl (badguy (owl w)) (carried_obj_name (owl w)) p)
                 (sector_objects w) (calls w) (carried_at_call w)).

Definition call (c : Call) : M unit :=
  fun w =>
    (tt, mkWorld (owl w) (sector_objects w) (calls w ++ [c])
                 (carried_at_call w ++ [carried_object (owl w)])).

(** [Sector::get().add_object]: the sector takes the object over. *)
Definition add_object (g : GameObject) : M unit :=
  fun w =>
    (tt, mkWorld (owl w) (sector_objects w ++ [g])
                 (calls w ++ [Sector_add_object g])
                 (carried_at_call w ++ [carried_object (owl w)])).

(** ** Setters of the members *)

Definition with_physic (f : Physic -> Physic) (b : BadGuy) : BadGuy :=
  mkBadGuy (m_dir b) (m_frozen b) (f (m_physic b)) (m_bbox b) (m_action b)
           (m_state b).

Definition set_velocity_x (v : float) : BadGuy -> BadGuy :=
  with_physic (fun p =>
    mkPhysic v (velocity_y p) (acceleration_y p) (gravity_enabled p)).

Definition set_velocity_y (v : float) : BadGuy -> BadGuy :=
  with_physic (fun p =>
    mkPhysic (velocity_x p) v (acceleration_y p) (gravity_enabled p)).

Definition set_acceleration_y (a : float) : BadGuy -> BadGuy :=
  with_physic (fun p =>
    mkPhysic (velocity_x p) (velocity_y p) a (gravity_enabled p)).

Definition enable_gravity (g : bool) : BadGuy -> BadGuy :=
  with_physic (fun p =>
    mkPhysic (velocity_x p) (velocity_y p) (acceleration_y p) g).

(** [set_action (name, loops)] and [m_sprite->set_action (name)]: both
    select the action of the sprite. *)
Definition set_action (name : string) (b : BadGuy) : BadGuy :=
  mkBadGuy (m_dir b) (m_frozen b) (m_physic b) (m_bbox b) name (m_state b).

Definition set_dir (d : Direction) (b : BadGuy) : BadGuy :=
  mkBadGuy d (m_frozen b) (m_physic b) (m_bbox b) (m_action b) (m_state b).

Definition set_state (s : State) (b : BadGuy) : BadGuy :=
  mkBadGuy (m_dir b) (m_frozen b) (m_physic b) (m_bbox b) (m_action b) s.

(** [carried_object->ungrab], called on [*this] and [m_dir]. *)
Definition ungrab (obj : GameObject) : M unit :=
  (b <- this_badguy ;;
   call (Portable_ungrab obj b (m_dir b)))%owl.

(** [carried_object->grab], called on [*this], [obj_pos] and [m_dir]. *)
Definition grab (obj : GameObject) (obj_pos : Vector) : M unit :=
  (b <- this_badguy ;;
   call (Portable_grab obj b obj_pos (m_dir b)))%owl.

(** The double quote character of the log message. *)
Definition dquote : string :=
  String (Ascii.Ascii false true false false false true false false)
    EmptyString.

Definition facing (d : Direction) : string :=
  if Direction_eqb d LEFT then "left"%string else "right"%string.

(** ** The methods of [Owl] *)

Section Methods.

Variable env : Collaborators.

Local Open Scope owl_scope.

(** The constructor, given the members the base class constructor has
    read and the value of the [carry] entry if the reader has one. *)
Definition Owl_new (base : BadGuy) (carry : option string) : Owl :=
  mkOwl (set_action (facing (m_dir base)) base)
        (match carry with
         | Some name => name
         | None => "skydive"%string
         end)
        None.

Definition save : M unit :=
  call Base_save ;;
  o <- this ;;
  call (Writer_write "carry" (carried_obj_name o)).

Definition initialize : M unit :=
  b <- this_badguy ;;
  update_badguy (set_velocity_x
    (if Direction_eqb (m_dir b) LEFT then (- FLYING_SPEED)%f32
     else FLYING_SPEED)) ;;
  update_badguy (enable_gravity false) ;;
  update_badguy (set_action (facing (m_dir b))) ;;
  if Editor_is_active env then ret tt
  else
    o <- this ;;
    match GameObjectFactory_create env (carried_obj_name o)
            (get_pos env (badguy o)) (m_dir (badguy o)) with
    | None =>
        call (log_fatal ("Creating " ++ dquote ++ carried_obj_name o
                           ++ dquote ++ " object failed."))
    | Some game_object =>
        set_carried_object (dynamic_cast_Portable game_object) ;;
        o' <- this ;;
        match carried_object o' with
        | None =>
            call (log_warning ("Object is not portable: "
                                 ++ carried_obj_name o'))
        | Some _ => add_object game_object
        end
    end.

Definition is_above_player (b : BadGuy) : bool :=
  match Sector_get_nearest_player env (m_bbox b) with
  | None => false
  | Some player =>
      let x_offset :=
        if Direction_eqb (m_dir b) LEFT then ACTIVATION_DISTANCE
        else (- ACTIVATION_DISTANCE)%f32 in
      let player_bbox := get_bbox player in
      ((y (p1 player_bbox) >=? y (p2 (m_bbox b)))
       && ((x (p2 player_bbox) + x_offset) >? x (p1 (m_bbox b)))
       && ((x (p1 player_bbox) + x_offset) <? x (p2 (m_bbox b))))%f32
  end.

Definition active_update (dt_sec : float) : M unit :=
  update_badguy (BadGuy_active_update env dt_sec) ;;
  call (Base_active_update dt_sec) ;;
  o <- this ;;
  if m_frozen (badguy o) then ret tt
  else
    match carried_object o with
    | Some obj =>
        if negb (is_above_player (badguy o)) then
          let obj_pos := get_anchor_pos env (m_bbox (badguy o)) ANCHOR_BOTTOM in
          let obj_pos :=
            mkVector (x obj_pos - Float32.of_int 16)%f32 (y obj_pos) in
          let obj_pos :=
            mkVector (x obj_pos) (y obj_pos + Float32.of_int 3)%f32 in
          if ((x obj_pos <=? Float32.of_int 16)
              || (x obj_pos + Float32.of_int 16 >=? Sector_get_width env))%f32
          then
            ungrab obj ;;
            set_carried_object None
          else
            grab obj obj_pos
        else
          ungrab obj ;;
          set_carried_object None
    | None => ret tt
    end.

Definition kill_fall : M unit :=
  b <- this_badguy ;;
  call (SoundManager_play "sounds/fall.wav" (get_pos env b)) ;;
  update_badguy (set_velocity_y (Float32.of_int 0)) ;;
  update_badguy (set_acceleration_y (Float32.of_int 0)) ;;
  update_badguy (enable_gravity true) ;;
  update_badguy (set_state STATE_FALLING) ;;
  o <- this ;;
  match carried_object o with
  | Some obj =>
      ungrab obj ;;
      set_carried_object None
  | None => ret tt
  end ;;
  call run_dead_script.

Definition collision_squished : M bool :=
  b <- this_badguy ;;
  match Sector_get_nearest_player env (m_bbox b) with
  | Some player => call (Player_bounce player b)
  | None => ret tt
  end ;;
  o <- this ;;
  match carried_object o with
  | Some obj =>
      ungrab obj ;;
      set_carried_object None
  | None => ret tt
  end ;;
  kill_fall ;;
  ret true.

Definition freeze : M unit :=
  o <- this ;;
  match carried_object o with
  | Some obj =>
      ungrab obj ;;
      set_carried_object None
  | None => ret tt
  end ;;
  update_badguy (enable_gravity true) ;;
  update_badguy (BadGuy_freeze env) ;;
  call Base_freeze.

Definition unfreeze : M unit :=
  update_badguy (BadGuy_unfreeze env) ;;
  call Base_unfreeze ;;
  b <- this_badguy ;;
  update_badguy (set_velocity_x
    (if Direction_eqb (m_dir b) LEFT then (- FLYING_SPEED)%f32
     else FLYING_SPEED)) ;;
  update_badguy (enable_gravity false) ;;
  update_badguy (set_action (facing (m_dir b))).

Definition is_freezable : bool := true.

Definition collision_solid (hit : CollisionHit) : M unit :=
  b <- this_badguy ;;
  if m_frozen b then
    update_badguy (BadGuy_collision_solid env hit) ;;
    call (Base_collision_solid hit)
  else if top hit || bottom hit then
    update_badguy (set_velocity_y (Float32.of_int 0))
  else if left hit || right hit then
    if Direction_eqb (m_dir b) LEFT then
      update_badguy (set_action "right") ;;
      update_badguy (set_dir RIGHT) ;;
      update_badguy (set_velocity_x FLYING_SPEED)
    else
      update_badguy (set_action "left") ;;
      update_badguy (set_dir LEFT) ;;
      update_badguy (set_velocity_x (- FLYING_SPEED)%f32)
  else ret tt.

Definition ignite : M unit :=
  o <- this ;;
  match carried_object o with
  | Some obj =>
      ungrab obj ;;
      set_carried_object None
  | None => ret tt
  end ;;
  update_badguy (BadGuy_ignite env) ;;
  call Base_ignite.

End Methods.

(** ** Sequences of operations on one Owl *)

Inductive Op : Type :=
| OpInitialize
| OpSave
| OpActiveUpdate (dt_sec : float)
| OpCollisionSquished
| OpKillFall
| OpFreeze
| OpUnfreeze
| OpCollisionSolid (hit : CollisionHit)
| OpIgnite.

Definition run_op (env : Collaborators) (op : Op) : M unit :=
  match op with
  | OpInitialize => initialize env
  | OpSave => save
  | OpActiveUpdate dt_sec => active_update env dt_sec
  | OpCollisionSquished => (collision_squished env ;; ret tt)%owl
  | OpKillFall => kill_fall env
  | OpFreeze => freeze env
  | OpUnfreeze => unfreeze env
  | OpCollisionSolid hit => collision_solid env hit
  | OpIgnite => ignite env
  end.

Fixpoint run_ops (env : Collaborators) (ops : list Op) (w : World) : World :=
  match ops with
  | [] => w
  | op :: ops' => run_ops env ops' (exec (run_op env op) w)
  end.

Definition is_initialize (op : Op) : bool :=
  match op with
  | OpInitialize => true
  | _ => false
  end.

Definition is_grab (c : Call) : bool :=
  match c with
  | Portable_grab _ _ _ _ => true
  | _ => false
  end.

(** ** The properties, in the words of the specification *)

Definition opposite (d : Direction) : Direction :=
  match d with
  | LEFT => RIGHT
  | RIGHT => LEFT
  end.

(** The flying speed with the sign of a direction. *)
Definition flying_velocity (d : Direction) : float :=
  match d with
  | LEFT => (- FLYING_SPEED)%f32
  | RIGHT => FLYING_SPEED
  end.

(** Flight as [initialize] and [unfreeze] set it up: flying speed in the
    current direction, no gravity, the facing action. *)
Definition start_flying (b : BadGuy) : BadGuy :=
  set_action (facing (m_dir b))
    (enable_gravity false (set_velocity_x (flying_velocity (m_dir b)) b)).

(** The fall that [kill_fall] sets up. *)
Definition start_falling (b : BadGuy) : BadGuy :=
  set_state STATE_FALLING
    (enable_gravity true
       (set_acceleration_y (Float32.of_int 0)
          (set_velocity_y (Float32.of_int 0) b))).

(** The sign of the horizontal velocity matches the direction: negative
    for [LEFT], positive for [RIGHT]. *)
Definition velocity_matches_dir (b : BadGuy) : bool :=
  match m_dir b with
  | LEFT => (velocity_x (m_physic b) <? Float32.of_int 0)%f32
  | RIGHT => (velocity_x (m_physic b) >? Float32.of_int 0)%f32
  end.

(** The activation distance, signed so that the zone that triggers the
    release lies ahead of the Owl: added to the player's x coordinates it
    is [+128] when the Owl flies left and [-128] when it flies right. *)
Definition activation_offset (d : Direction) : float :=
  match d with
  | LEFT => ACTIVATION_DISTANCE
  | RIGHT => (- ACTIVATION_DISTANCE)%f32
  end.

(** "The nearest player is below": a nearest player exists, its top edge
    is at or below the Owl's bottom edge, and its horizontal extent,
    moved by the activation offset, overlaps the Owl's. *)
Definition player_below (env : Collaborators) (b : BadGuy) : Prop :=
  exists player,
    Sector_get_nearest_player env (m_bbox b) = Some player /\
    (y (p1 (get_bbox player)) >=? y (p2 (m_bbox b)))%f32 = true /\
    (x (p2 (get_bbox player)) + activation_offset (m_dir b)
       >? x (p1 (m_bbox b)))%f32 = true /\
    (x (p1 (get_bbox player)) + activation_offset (m_dir b)
       <? x (p2 (m_bbox b)))%f32 = true.

(** The anchor of the carried object: the bottom anchor of the bounding
    box, 16 to the left and 3 further down. *)
Definition carry_anchor (env : Collaborators) (b : BadGuy) : Vector :=
  let a := get_anchor_pos env (m_bbox b) ANCHOR_BOTTOM in
  mkVector (x a - Float32.of_int 16)%f32 (y a + Float32.of_int 3)%f32.

(** The anchor is within 16 units of the left or of the right edge of the
    level. *)
Definition at_level_edge (env : Collaborators) (a : Vector) : bool :=
  ((x a <=? Float32.of_int 16)
   || (x a + Float32.of_int 16 >=? Sector_get_width env))%f32.


(** The bounce that [collision_squished] asks of the nearest player. *)
Definition bounce_calls (env : Collaborators) (b : BadGuy) : list Call :=
  match Sector_get_nearest_player env (m_bbox b) with
  | Some player => [Player_bounce player b]
  | None => []
  end.

(** The sound of [kill_fall]. *)
Definition fall_sound (env : Collaborators) (b : BadGuy) : Call :=
  SoundManager_play "sounds/fall.wav" (get_pos env b).

(** The Owl once [active_update] has run the update of the base class. *)
Definition after_base_update (env : Collaborators) (dt_sec : float) (w : World)
  : BadGuy :=
  BadGuy_active_update env dt_sec (badguy (owl w)).

Definition no_grab (cs : list Call) : bool :=
  forallb (fun c => negb (is_grab c)) cs.

(** What one operation does to the reference and to the calls: the calls
    are extended by [new]; the reference is kept or cleared; and if the
    reference was empty, no [grab] is among the new calls. *)
Definition keeps_or_clears (w w' : World) (new : list Call) : Prop :=
  calls w' = calls w ++ new /\
  (carried_object (owl w') = carried_object (owl w)
   \/ carried_object (owl w') = None) /\
  (carried_object (owl w) = None -> no_grab new = true).

(** ** Measures on calls, operations and worlds *)

Definition is_ungrab (c : Call) : bool :=
  match c with
  | Portable_ungrab _ _ _ => true
  | _ => false
  end.

Definition count_ungrab (cs : list Call) : nat :=
  List.length (filter is_ungrab cs).

(** The object a call on a portable is made on. *)
Definition portable_target (c : Call) : option GameObject :=
  match c with
  | Portable_grab obj _ _ _ => Some obj
  | Portable_ungrab obj _ _ => Some obj
  | _ => None
  end.

Definition count_initialize (ops : list Op) : nat :=
  List.length (filter is_initialize ops).

(** 1 if the Owl carried something in [w] and carries nothing in [w'],
    0 otherwise. *)
Definition released_count (w w' : World) : nat :=
  match carried_object (owl w), carried_object (owl w') with
  | Some _, None => 1
  | _, _ => 0
  end.

(** What holds of a [grab] when it is made: the Owl is not frozen, flies
    in the direction it passes on, the player is not below it, and the
    position is the carry anchor, away from the edges of the level. *)
Definition grab_ok (env : Collaborators) (c : Call) : Prop :=
  match c with
  | Portable_grab _ holder pos dir =>
      m_frozen holder = false /\
      dir = m_dir holder /\
      is_above_player env holder = false /\
      pos = carry_anchor env holder /\
      at_level_edge env pos = false
  | _ => True
  end.

(** Whatever the Owl carries is one of the objects of the sector. *)
Definition carried_is_owned (w : World) : Prop :=
  forall obj, carried_object (owl w) = Some obj -> In obj (sector_objects w).

(** The Owl flies as [initialize] leaves it: flying speed in its
    direction, the facing action. *)
Definition in_flight (b : BadGuy) : Prop :=
  velocity_x (m_physic b) = flying_velocity (m_dir b) /\
  m_action b = facing (m_dir b).

(** ** The base class, as far as the spec describes it *)




(** ** A concrete level *)

Module Scenario.

Definition f (z : Z) : float := Float32.of_int z.

Definition box (x1 y1 x2 y2 : Z) : Rectf :=
  mkRectf (mkVector (f x1) (f y1)) (mkVector (f x2) (f y2)).

(** The middle of the bottom edge. *)
Definition bottom_anchor (r : Rectf) (_ : AnchorPoint) : Vector :=
  mkVector (SFdiv Float32.prec Float32.emax
              (x (p1 r) + x (p2 r))%f32 (f 2))
           (y (p2 r)).

Definition freeze_base (b : BadGuy) : BadGuy :=
  mkBadGuy (m_dir b) true (m_physic b) (m_bbox b) (m_action b) (m_state b).

Definition unfreeze_base (b : BadGuy) : BadGuy :=
  mkBadGuy (m_dir b) false (m_physic b) (m_bbox b) (m_action b) (m_state b).

(** A base collision handler that stops the body. *)
Definition stop_base (_ : CollisionHit) (b : BadGuy) : BadGuy :=
  set_velocity_y (f 0) (set_velocity_x (f 0) b).

Definition crate : GameObject :=
  mkGameObject "rock" (mkVector (f 300) (f 100)) LEFT true.

Definition lamp : GameObject :=
  mkGameObject "torch" (mkVector (f 300) (f 100)) LEFT false.

Definition create (name : string) (pos : Vector) (dir : Direction)
  : option GameObject :=
  if String.eqb name "rock" then Some (mkGameObject name pos dir true)
  else if String.eqb name "torch" then Some (mkGameObject name pos dir false)
  else None.

(** A level 2000 units wide, with the given nearest player and base
    collision handler. *)
Definition level (player : option Player)
  (base_collision : CollisionHit -> BadGuy -> BadGuy) : Collaborators :=
  mkCollaborators false create (fun _ => player) (f 2000) bottom_anchor
    (fun b => p1 (m_bbox b))
    (fun _ b => b) freeze_base unfreeze_base (fun b => b) base_collision.

(** Tux stands ahead of an Owl that flies left, 120 units further left
    and below it. *)
Definition tux_ahead : Player := mkPlayer (box 180 200 212 264).

(** Tux stands behind that Owl. *)
Definition tux_behind : Player := mkPlayer (box 420 200 452 264).

Definition flying (d : Direction) : BadGuy :=
  mkBadGuy d false
    (mkPhysic (flying_velocity d) (f 0) (f 0) false)
    (box 300 100 332 132) (facing d) STATE_ACTIVE.


Definition world (b : BadGuy) (name : string) (carried : option GameObject)
  : World :=
  mkWorld (mkOwl b name carried)
          (match carried with Some o => [o] | None => [] end) [] [].

(** The same level opened in the editor. *)
Definition editor_level : Collaborators :=
  mkCollaborators true create (fun _ => None) (f 2000) bottom_anchor
    (fun b => p1 (m_bbox b))
    (fun _ b => b) freeze_base unfreeze_base (fun b => b) stop_base.


(** A level whose factory knows no class at all. *)
Definition bare_level : Collaborators :=
  mkCollaborators false (fun _ _ _ => None) (fun _ => None) (f 2000)
    bottom_anchor (fun b => p1 (m_bbox b))
    (fun _ b => b) freeze_base unfreeze_base (fun b => b) stop_base.

End Scenario.

(** * Properties *)

Arguments Float32.of_int : simpl never.
Arguments Float32.neg : simpl never.
Arguments Float32.add : simpl never.
Arguments Float32.sub : simpl never.
Arguments Float32.ltb : simpl never.
Arguments Float32.leb : simpl never.
Arguments Float32.gtb : simpl never.
Arguments Float32.geb : simpl never.

(** ** Running the monad *)

Lemma exec_bind {A B : Type} (c : M A) (k : A -> M B) (w : World) :
  exec (bind c k) w = exec (k (eval c w)) (exec c w).
Proof.
  unfold exec, eval, bind. destruct (c w) as [a w']. reflexivity.
Qed.

Lemma eval_bind {A B : Type} (c : M A) (k : A -> M B) (w : World) :
  eval (bind c k) w = eval (k (eval c w)) (exec c w).
Proof.
  unfold exec, eval, bind. destruct (c w) as [a w']. reflexivity.
Qed.

Lemma exec_ret {A : Type} (a : A) (w : World) : exec (ret a) w = w.
Proof. reflexivity. Qed.

Lemma exec_update_badguy (g : BadGuy -> BadGuy) (w : World) :
  exec (update_badguy g) w =
  mkWorld (mkOwl (g (badguy (owl w))) (carried_obj_name (owl w))
                 (carried_object (owl w)))
          (sector_objects w) (calls w) (carried_at_call w).
Proof. reflexivity. Qed.

Lemma exec_set_carried_object (p : option GameObject) (w : World) :
  exec (set_carried_object p) w =
  mkWorld (mkOwl (badguy (owl w)) (carried_obj_name (owl w)) p)
          (sector_objects w) (calls w) (carried_at_call w).
Proof. reflexivity. Qed.

Lemma exec_call (c : Call) (w : World) :
  exec (call c) w =
  mkWorld (owl w) (sector_objects w) (calls w ++ [c])
    (carried_at_call w ++ [carried_object (owl w)]).
Proof. reflexivity. Qed.

Lemma exec_ungrab (obj : GameObject) (w : World) :
  exec (ungrab obj) w =
  mkWorld (owl w) (sector_objects w)
    (calls w
       ++ [Portable_ungrab obj (badguy (owl w)) (m_dir (badguy (owl w)))])
    (carried_at_call w ++ [carried_object (owl w)]).
Proof. reflexivity. Qed.

Lemma exec_grab (obj : GameObject) (pos : Vector) (w : World) :
  exec (grab obj pos) w =
  mkWorld (owl w) (sector_objects w)
    (calls w
       ++ [Portable_grab obj (badguy (owl w)) pos (m_dir (badguy (owl w)))])
    (carried_at_call w ++ [carried_object (owl w)]).
Proof. reflexivity. Qed.

Lemma exec_add_object (g : GameObject) (w : World) :
  exec (add_object g) w =
  mkWorld (owl w) (sector_objects w ++ [g]) (calls w ++ [Sector_add_object g])
    (carried_at_call w ++ [carried_object (owl w)]).
Proof. reflexivity. Qed.

Lemma exec_this {A : Type} (k : Owl -> M A) (w : World) :
  exec (bind this k) w = exec (k (owl w)) w.
Proof. reflexivity. Qed.

Lemma exec_this_badguy {A : Type} (k : BadGuy -> M A) (w : World) :
  exec (bind this_badguy k) w = exec (k (badguy (owl w))) w.
Proof. reflexivity. Qed.

(** Symbolic execution of a method: unfold the monad and the primitive
    actions, then project the records that have become explicit. *)
Ltac run :=
  cbv [exec eval bind ret this this_badguy update_badguy set_carried_object
       call add_object ungrab grab fst snd];
  cbn [negb x y owl badguy carried_object carried_obj_name sector_objects calls
       carried_at_call m_dir m_frozen m_physic m_bbox m_action m_state
       velocity_x velocity_y acceleration_y gravity_enabled
       set_velocity_x set_velocity_y set_acceleration_y enable_gravity
       set_action set_dir set_state with_physic];
  rewrite <- ?app_assoc; cbn [app].

(** ** The signs of the constants *)

Lemma flying_velocity_left_negative :
  (flying_velocity LEFT <? Float32.of_int 0)%f32 = true.
Proof. reflexivity. Qed.

Lemma flying_velocity_right_positive :
  (flying_velocity RIGHT >? Float32.of_int 0)%f32 = true.
Proof. reflexivity. Qed.

Lemma flying_velocity_code (d : Direction) :
  (if Direction_eqb d LEFT then (- FLYING_SPEED)%f32 else FLYING_SPEED)
  = flying_velocity d.
Proof. destruct d; reflexivity. Qed.

Lemma flying_speed_value :
  FLYING_SPEED = S754_finite false 15728640 (-17) /\
  flying_velocity LEFT = Float32.of_int (-120) /\
  ACTIVATION_DISTANCE = S754_finite false 8388608 (-16).
Proof. repeat split; reflexivity. Qed.

(** ** Solid collisions *)

Section CollisionSolid.

Variable env : Collaborators.

Lemma collision_solid_unfrozen_vertical (w : World) (hit : CollisionHit) :
  m_frozen (badguy (owl w)) = false ->
  top hit || bottom hit = true ->
  exec (collision_solid env hit) w =
  mkWorld (mkOwl (set_velocity_y (Float32.of_int 0) (badguy (owl w)))
                 (carried_obj_name (owl w)) (carried_object (owl w)))
          (sector_objects w) (calls w) (carried_at_call w).
Proof.
  intros Hfrozen Hvert. unfold collision_solid.
  rewrite exec_this_badguy, Hfrozen, Hvert. reflexivity.
Qed.

Lemma collision_solid_unfrozen_lateral (w : World) (hit : CollisionHit) :
  m_frozen (badguy (owl w)) = false ->
  top hit || bottom hit = false ->
  left hit || right hit = true ->
  exec (collision_solid env hit) w =
  mkWorld (mkOwl (set_velocity_x
                    (flying_velocity (opposite (m_dir (badguy (owl w)))))
                    (set_dir (opposite (m_dir (badguy (owl w))))
                       (set_action (facing (opposite (m_dir (badguy (owl w)))))
                          (badguy (owl w)))))
                 (carried_obj_name (owl w)) (carried_object (owl w)))
          (sector_objects w) (calls w) (carried_at_call w).
Proof.
  intros Hfrozen Hvert Hlat. unfold collision_solid.
  rewrite exec_this_badguy, Hfrozen, Hvert, Hlat.
  destruct (m_dir (badguy (owl w))); reflexivity.
Qed.

Lemma collision_solid_unfrozen_none (w : World) (hit : CollisionHit) :
  m_frozen (badguy (owl w)) = false ->
  top hit || bottom hit = false ->
  left hit || right hit = false ->
  exec (collision_solid env hit) w = w.
Proof.
  intros Hfrozen Hvert Hlat. unfold collision_solid.
  rewrite exec_this_badguy, Hfrozen, Hvert, Hlat. reflexivity.
Qed.

Lemma collision_solid_frozen (w : World) (hit : CollisionHit) :
  m_frozen (badguy (owl w)) = true ->
  exec (collision_solid env hit) w =
  mkWorld (mkOwl (BadGuy_collision_solid env hit (badguy (owl w)))
                 (carried_obj_name (owl w)) (carried_object (owl w)))
          (sector_objects w) (calls w ++ [Base_collision_solid hit])
          (carried_at_call w ++ [carried_object (owl w)]).
Proof.
  intros Hfrozen. unfold collision_solid.
  rewrite exec_this_badguy, Hfrozen. reflexivity.
Qed.

End CollisionSolid.

(** C6 (amended): for every solid collision that reports a lateral hit
    (left or right) and no vertical hit (neither top nor bottom) while the
    Owl is not frozen, the direction is reversed, the facing action of the
    new direction is selected and the horizontal velocity is the flying
    speed (120) with the sign of the new direction; an Owl facing right
    that is hit on its right side ends facing left with horizontal
    velocity -120. *)
Theorem collision_solid_lateral_reverses
  (env : Collaborators) (w : World) (hit : CollisionHit) :
  m_frozen (badguy (owl w)) = false ->
  top hit || bottom hit = false ->
  left hit || right hit = true ->
  let b := badguy (owl w) in
  let b' := badguy (owl (exec (collision_solid env hit) w)) in
  m_dir b' = opposite (m_dir b) /\
  m_action b' = facing (m_dir b') /\
  velocity_x (m_physic b') = flying_velocity (m_dir b') /\
  (m_dir b = RIGHT -> right hit = true ->
   m_dir b' = LEFT /\ m_action b' = "left"%string /\
   velocity_x (m_physic b') = Float32.of_int (-120)).
Proof.
  intros Hfrozen Hvert Hlat b b'. subst b b'.
  rewrite (collision_solid_unfrozen_lateral env w hit Hfrozen Hvert Hlat).
  cbn [owl badguy m_dir m_action m_physic velocity_x set_velocity_x set_dir
       set_action with_physic].
  split; [reflexivity | split; [reflexivity | split; [reflexivity | ]]].
  intros Hright _. rewrite Hright. repeat split.
Qed.

Lemma collision_solid_lateral_reverses_witness :
  let env := Scenario.level None Scenario.stop_base in
  let w := Scenario.world (Scenario.flying RIGHT) "rock" None in
  let hit := mkCollisionHit false true false false in
  m_frozen (badguy (owl w)) = false /\
  top hit || bottom hit = false /\
  left hit || right hit = true /\
  m_dir (badguy (owl (exec (collision_solid env hit) w))) = LEFT /\
  velocity_x (m_physic (badguy (owl (exec (collision_solid env hit) w))))
  = Float32.of_int (-120).
Proof.
  intros env w hit.
  pose proof (collision_solid_lateral_reverses env w hit
                eq_refl eq_refl eq_refl) as H.
  destruct H as (_ & _ & _ & H). destruct (H eq_refl eq_refl) as (Hd & _ & Hv).
  do 3 (split; [reflexivity | ]). split; [exact Hd | exact Hv].
Defined.

(** C6, as stated, fails: an unfrozen Owl facing right whose collision
    reports a hit on the right together with a hit at the bottom keeps
    its direction and its horizontal velocity. *)
Lemma collision_solid_lateral_counterexample :
  let env := Scenario.level None Scenario.stop_base in
  let w := Scenario.world (Scenario.flying RIGHT) "rock" None in
  let hit := mkCollisionHit false true false true in
  let b' := badguy (owl (exec (collision_solid env hit) w)) in
  m_frozen (badguy (owl w)) = false /\
  right hit = true /\
  m_dir (badguy (owl w)) = RIGHT /\
  m_dir b' <> LEFT /\
  velocity_x (m_physic b') <> Float32.of_int (-120).
Proof.
  vm_compute. repeat split; discriminate.
Qed.



(** The same hit on an Owl in flight: the Owl's own code zeroes the
    vertical velocity, whatever the base class does. *)
Example collision_solid_vertical_in_flight :
  let env := Scenario.level None Scenario.stop_base in
  let w := Scenario.world (Scenario.flying LEFT) "rock" (Some Scenario.crate) in
  let hit := mkCollisionHit false false true false in
  let w' := exec (collision_solid env hit) w in
  velocity_y (m_physic (badguy (owl w'))) = Float32.of_int 0 /\
  m_dir (badguy (owl w')) = LEFT /\
  velocity_x (m_physic (badguy (owl w'))) = Float32.of_int (-120) /\
  carried_object (owl w') = Some Scenario.crate.
Proof. repeat split. Qed.

(** C10: when one solid collision reports both a vertical hit (top or
    bottom) and a lateral hit (left or right) while the Owl is not frozen,
    only the vertical response is applied: the outcome is that of the same
    hit without its lateral part, the vertical velocity is zero, and the
    direction, the facing action and the horizontal velocity are
    unchanged. *)
Theorem collision_solid_vertical_before_lateral
  (env : Collaborators) (w : World) (hit : CollisionHit) :
  m_frozen (badguy (owl w)) = false ->
  top hit || bottom hit = true ->
  left hit || right hit = true ->
  let b := badguy (owl w) in
  let w' := exec (collision_solid env hit) w in
  w' = exec (collision_solid env
               (mkCollisionHit false false (top hit) (bottom hit))) w /\
  velocity_y (m_physic (badguy (owl w'))) = Float32.of_int 0 /\
  m_dir (badguy (owl w')) = m_dir b /\
  m_action (badguy (owl w')) = m_action b /\
  velocity_x (m_physic (badguy (owl w'))) = velocity_x (m_physic b).
Proof.
  intros Hfrozen Hvert _ b w'. subst b w'.
  rewrite (collision_solid_unfrozen_vertical env w hit Hfrozen Hvert).
  rewrite (collision_solid_unfrozen_vertical env w
             (mkCollisionHit false false (top hit) (bottom hit)) Hfrozen Hvert).
  repeat split.
Qed.

Lemma collision_solid_vertical_before_lateral_witness :
  let env := Scenario.level None Scenario.stop_base in
  let w := Scenario.world (Scenario.flying RIGHT) "rock" None in
  let hit := mkCollisionHit false true false true in
  let w' := exec (collision_solid env hit) w in
  m_frozen (badguy (owl w)) = false /\
  top hit || bottom hit = true /\
  left hit || right hit = true /\
  velocity_y (m_physic (badguy (owl w'))) = Float32.of_int 0 /\
  m_dir (badguy (owl w')) = RIGHT /\
  m_action (badguy (owl w')) = "right"%string /\
  velocity_x (m_physic (badguy (owl w'))) = FLYING_SPEED.
Proof.
  intros env w hit w'.
  destruct (collision_solid_vertical_before_lateral env w hit
              eq_refl eq_refl eq_refl) as (_ & Hy & Hd & Ha & Hv).
  do 3 (split; [reflexivity | ]).
  split; [exact Hy | ]. split; [exact Hd | ]. split; [exact Ha | exact Hv].
Defined.

(** ** Initialization and unfreezing *)

Section Initialize.

Variable env : Collaborators.

Lemma start_flying_matches (b : BadGuy) :
  velocity_matches_dir (start_flying b) = true.
Proof.
  unfold start_flying, velocity_matches_dir.
  cbn [set_action enable_gravity set_velocity_x with_physic m_dir m_physic
       velocity_x].
  destruct (m_dir b).
  - exact flying_velocity_left_negative.
  - exact flying_velocity_right_positive.
Qed.

Lemma initialize_editor (w : World) :
  Editor_is_active env = true ->
  exec (initialize env) w =
  mkWorld (mkOwl (start_flying (badguy (owl w))) (carried_obj_name (owl w))
                 (carried_object (owl w)))
          (sector_objects w) (calls w) (carried_at_call w).
Proof.
  intros Heditor. unfold initialize. run.
  rewrite Heditor, flying_velocity_code. reflexivity.
Qed.

Lemma initialize_create_failed (w : World) :
  Editor_is_active env = false ->
  GameObjectFactory_create env (carried_obj_name (owl w))
    (get_pos env (start_flying (badguy (owl w)))) (m_dir (badguy (owl w)))
  = None ->
  exec (initialize env) w =
  mkWorld (mkOwl (start_flying (badguy (owl w))) (carried_obj_name (owl w))
                 (carried_object (owl w)))
          (sector_objects w)
          (calls w ++ [log_fatal ("Creating " ++ dquote
                                    ++ carried_obj_name (owl w)
                                    ++ dquote ++ " object failed.")])
          (carried_at_call w ++ [carried_object (owl w)]).
Proof.
  intros Heditor Hcreate. unfold initialize. run.
  rewrite Heditor, flying_velocity_code. run.
  fold (start_flying (badguy (owl w))). rewrite Hcreate. reflexivity.
Qed.

Lemma initialize_created (w : World) (g : GameObject) :
  Editor_is_active env = false ->
  GameObjectFactory_create env (carried_obj_name (owl w))
    (get_pos env (start_flying (badguy (owl w)))) (m_dir (badguy (owl w)))
  = Some g ->
  exec (initialize env) w =
  if go_portable g then
    mkWorld (mkOwl (start_flying (badguy (owl w))) (carried_obj_name (owl w))
                   (Some g))
            (sector_objects w ++ [g]) (calls w ++ [Sector_add_object g])
            (carried_at_call w ++ [Some g])
  else
    mkWorld (mkOwl (start_flying (badguy (owl w))) (carried_obj_name (owl w))
                   None)
            (sector_objects w)
            (calls w ++ [log_warning ("Object is not portable: "
                                        ++ carried_obj_name (owl w))])
            (carried_at_call w ++ [None]).
Proof.
  intros Heditor Hcreate. unfold initialize. run.
  rewrite Heditor, flying_velocity_code. run.
  fold (start_flying (badguy (owl w))). rewrite Hcreate. run.
  unfold dynamic_cast_Portable. destruct (go_portable g); reflexivity.
Qed.

Lemma initialize_badguy (w : World) :
  badguy (owl (exec (initialize env) w)) = start_flying (badguy (owl w)).
Proof.
  destruct (Editor_is_active env) eqn:Heditor.
  - rewrite initialize_editor by assumption. reflexivity.
  - destruct (GameObjectFactory_create env (carried_obj_name (owl w))
                (get_pos env (start_flying (badguy (owl w))))
                (m_dir (badguy (owl w)))) as [g|] eqn:Hcreate.
    + rewrite (initialize_created w Heditor Hcreate).
      destruct (go_portable g); reflexivity.
    + rewrite initialize_create_failed by assumption. reflexivity.
Qed.

Lemma unfreeze_world (w : World) :
  exec (unfreeze env) w =
  mkWorld (mkOwl (start_flying (BadGuy_unfreeze env (badguy (owl w))))
                 (carried_obj_name (owl w)) (carried_object (owl w)))
          (sector_objects w) (calls w ++ [Base_unfreeze])
          (carried_at_call w ++ [carried_object (owl w)]).
Proof.
  unfold unfreeze. run. rewrite flying_velocity_code. reflexivity.
Qed.

End Initialize.

(** ** The handlers that end the carrying *)

Section Handlers.

Variable env : Collaborators.

Lemma kill_fall_world (w : World) :
  exec (kill_fall env) w =
  mkWorld (mkOwl (start_falling (badguy (owl w))) (carried_obj_name (owl w))
                 None)
          (sector_objects w)
          (calls w ++ fall_sound env (badguy (owl w))
             :: match carried_object (owl w) with
                | Some obj =>
                    [Portable_ungrab obj (start_falling (badguy (owl w)))
                       (m_dir (badguy (owl w)));
                     run_dead_script]
                | None => [run_dead_script]
                end)
          (carried_at_call w ++ carried_object (owl w)
             :: match carried_object (owl w) with
                | Some obj => [Some obj; None]
                | None => [None]
                end).
Proof.
  unfold kill_fall. run.
  destruct (carried_object (owl w)) as [obj|] eqn:Hcarried; run;
    rewrite ?Hcarried; reflexivity.
Qed.

Lemma collision_squished_world (w : World) :
  exec (collision_squished env) w =
  mkWorld (mkOwl (start_falling (badguy (owl w))) (carried_obj_name (owl w))
                 None)
          (sector_objects w)
          (calls w ++ bounce_calls env (badguy (owl w))
             ++ match carried_object (owl w) with
                | Some obj =>
                    [Portable_ungrab obj (badguy (owl w))
                       (m_dir (badguy (owl w)))]
                | None => []
                end
             ++ [fall_sound env (badguy (owl w)); run_dead_script])
          (carried_at_call w
             ++ map (fun _ => carried_object (owl w))
                  (bounce_calls env (badguy (owl w)))
             ++ match carried_object (owl w) with
                | Some obj => [Some obj]
                | None => []
                end
             ++ [None; None]).
Proof.
  unfold collision_squished, kill_fall, bounce_calls. run.
  destruct (Sector_get_nearest_player env (m_bbox (badguy (owl w))))
    as [player|]; run;
    destruct (carried_object (owl w)) as [obj|] eqn:Hcarried; run;
    rewrite ?Hcarried; run; reflexivity.
Qed.

Lemma freeze_world (w : World) :
  exec (freeze env) w =
  mkWorld (mkOwl (BadGuy_freeze env (enable_gravity true (badguy (owl w))))
                 (carried_obj_name (owl w)) None)
          (sector_objects w)
          (calls w
             ++ match carried_object (owl w) with
                | Some obj =>
                    [Portable_ungrab obj (badguy (owl w))
                       (m_dir (badguy (owl w)))]
                | None => []
                end
             ++ [Base_freeze])
          (carried_at_call w
             ++ match carried_object (owl w) with
                | Some obj => [Some obj]
                | None => []
                end
             ++ [None]).
Proof.
  unfold freeze. run.
  destruct (carried_object (owl w)) as [obj|] eqn:Hcarried; run;
    rewrite ?Hcarried; reflexivity.
Qed.

Lemma ignite_world (w : World) :
  exec (ignite env) w =
  mkWorld (mkOwl (BadGuy_ignite env (badguy (owl w)))
                 (carried_obj_name (owl w)) None)
          (sector_objects w)
          (calls w
             ++ match carried_object (owl w) with
                | Some obj =>
                    [Portable_ungrab obj (badguy (owl w))
                       (m_dir (badguy (owl w)))]
                | None => []
                end
             ++ [Base_ignite])
          (carried_at_call w
             ++ match carried_object (owl w) with
                | Some obj => [Some obj]
                | None => []
                end
             ++ [None]).
Proof.
  unfold ignite. run.
  destruct (carried_object (owl w)) as [obj|] eqn:Hcarried; run;
    rewrite ?Hcarried; reflexivity.
Qed.

End Handlers.

(** C1 (amended): on initialization outside the editor, if the factory
    creates the configured object but the object is not portable, a
    warning is logged, the carried-object reference is empty afterwards,
    and the object is not handed to the sector: the sector's objects are
    the same as before. *)
Theorem initialize_not_portable
  (env : Collaborators) (w : World) (g : GameObject) :
  Editor_is_active env = false ->
  GameObjectFactory_create env (carried_obj_name (owl w))
    (get_pos env (start_flying (badguy (owl w)))) (m_dir (badguy (owl w)))
  = Some g ->
  go_portable g = false ->
  let w' := exec (initialize env) w in
  calls w' = calls w ++ [log_warning ("Object is not portable: "
                                        ++ carried_obj_name (owl w))] /\
  carried_object (owl w') = None /\
  sector_objects w' = sector_objects w.
Proof.
  intros Heditor Hcreate Hportable w'. subst w'.
  rewrite (initialize_created env w Heditor Hcreate), Hportable.
  repeat split.
Qed.

Lemma initialize_not_portable_witness :
  let env := Scenario.level None Scenario.stop_base in
  let w := Scenario.world (Scenario.flying LEFT) "torch" None in
  let w' := exec (initialize env) w in
  Editor_is_active env = false /\
  GameObjectFactory_create env (carried_obj_name (owl w))
    (get_pos env (start_flying (badguy (owl w)))) (m_dir (badguy (owl w)))
  = Some Scenario.lamp /\
  go_portable Scenario.lamp = false /\
  calls w' = [log_warning "Object is not portable: torch"] /\
  carried_object (owl w') = None /\
  sector_objects w' = [].
Proof.
  intros env w w'.
  destruct (initialize_not_portable env w (g := Scenario.lamp)
              eq_refl eq_refl eq_refl) as (Hcalls & Hcarried & Hobjects).
  do 3 (split; [reflexivity | ]).
  split; [exact Hcalls | ]. split; [exact Hcarried | exact Hobjects].
Defined.

(** C1, as stated, fails: the object that is created but is not portable
    is not among the sector's objects after initialization. *)
Lemma initialize_not_portable_counterexample :
  let env := Scenario.level None Scenario.stop_base in
  let w := Scenario.world (Scenario.flying LEFT) "torch" None in
  let w' := exec (initialize env) w in
  Editor_is_active env = false /\
  GameObjectFactory_create env "torch" (get_pos env (badguy (owl w'))) LEFT
  = Some Scenario.lamp /\
  dynamic_cast_Portable Scenario.lamp = None /\
  ~ In Scenario.lamp (sector_objects w').
Proof.
  vm_compute. repeat split. intros [].
Qed.





(** ** The flight with a carried object *)

Section ActiveUpdate.

Variable env : Collaborators.

Lemma is_above_player_iff (b : BadGuy) :
  is_above_player env b = true <-> player_below env b.
Proof.
  unfold is_above_player, player_below.
  replace (if Direction_eqb (m_dir b) LEFT then ACTIVATION_DISTANCE
           else (- ACTIVATION_DISTANCE)%f32)
    with (activation_offset (m_dir b)) by (destruct (m_dir b); reflexivity).
  destruct (Sector_get_nearest_player env (m_bbox b)) as [player|].
  - rewrite !andb_true_iff. split.
    + intros [[Hbelow Hright] Hleft]. exists player. auto.
    + intros (player' & Hnearest & Hbelow & Hright & Hleft).
      injection Hnearest as <-. auto.
  - split; [discriminate | ].
    intros (player' & Hnearest & _). discriminate Hnearest.
Qed.

Lemma is_above_player_no_player (b : BadGuy) :
  Sector_get_nearest_player env (m_bbox b) = None ->
  is_above_player env b = false.
Proof.
  intros Hnearest. unfold is_above_player. rewrite Hnearest. reflexivity.
Qed.

Variable dt_sec : float.
Variable w : World.

Lemma active_update_idle :
  let b := after_base_update env dt_sec w in
  m_frozen b = true \/ carried_object (owl w) = None ->
  exec (active_update env dt_sec) w =
  mkWorld (mkOwl b (carried_obj_name (owl w)) (carried_object (owl w)))
          (sector_objects w) (calls w ++ [Base_active_update dt_sec])
          (carried_at_call w ++ [carried_object (owl w)]).
Proof.
  intros b Hidle. unfold active_update. run.
  fold (after_base_update env dt_sec w). fold b.
  destruct (m_frozen b); [reflexivity | ].
  destruct Hidle as [Hfrozen | Hcarried]; [discriminate Hfrozen | ].
  rewrite Hcarried. reflexivity.
Qed.

Lemma active_update_drop (obj : GameObject) :
  let b := after_base_update env dt_sec w in
  m_frozen b = false ->
  carried_object (owl w) = Some obj ->
  is_above_player env b = true ->
  exec (active_update env dt_sec) w =
  mkWorld (mkOwl b (carried_obj_name (owl w)) None) (sector_objects w)
          (calls w ++ [Base_active_update dt_sec;
                       Portable_ungrab obj b (m_dir b)])
          (carried_at_call w ++ [Some obj; Some obj]).
Proof.
  intros b Hfrozen Hcarried Habove. unfold active_update. run.
  fold (after_base_update env dt_sec w). fold b.
  rewrite Hfrozen, Hcarried, Habove. run. reflexivity.
Qed.

Lemma active_update_edge (obj : GameObject) :
  let b := after_base_update env dt_sec w in
  m_frozen b = false ->
  carried_object (owl w) = Some obj ->
  is_above_player env b = false ->
  at_level_edge env (carry_anchor env b) = true ->
  exec (active_update env dt_sec) w =
  mkWorld (mkOwl b (carried_obj_name (owl w)) None) (sector_objects w)
          (calls w ++ [Base_active_update dt_sec;
                       Portable_ungrab obj b (m_dir b)])
          (carried_at_call w ++ [Some obj; Some obj]).
Proof.
  intros b Hfrozen Hcarried Habove Hedge. unfold active_update. run.
  fold (after_base_update env dt_sec w). fold b.
  rewrite Hfrozen, Hcarried, Habove. cbn [negb x y].
  unfold at_level_edge, carry_anchor in Hedge. cbn [x y] in Hedge.
  rewrite Hedge. run. reflexivity.
Qed.

Lemma active_update_grab (obj : GameObject) :
  let b := after_base_update env dt_sec w in
  m_frozen b = false ->
  carried_object (owl w) = Some obj ->
  is_above_player env b = false ->
  at_level_edge env (carry_anchor env b) = false ->
  exec (active_update env dt_sec) w =
  mkWorld (mkOwl b (carried_obj_name (owl w)) (Some obj)) (sector_objects w)
          (calls w ++ [Base_active_update dt_sec;
                       Portable_grab obj b (carry_anchor env b) (m_dir b)])
          (carried_at_call w ++ [Some obj; Some obj]).
Proof.
  intros b Hfrozen Hcarried Habove Hedge. unfold active_update. run.
  fold (after_base_update env dt_sec w). fold b.
  rewrite Hfrozen, Hcarried, Habove. cbn [negb x y].
  unfold at_level_edge, carry_anchor in Hedge. cbn [x y] in Hedge.
  rewrite Hedge. run. reflexivity.
Qed.

End ActiveUpdate.

(** C3: [is_above_player] holds exactly when a nearest player exists, its
    top edge is at or below the bottom edge of the Owl, and its horizontal
    extent overlaps that of the Owl once the activation distance of 128 is
    applied: added to the player's x coordinates when the Owl flies left,
    subtracted when it flies right, which puts the zone that triggers the
    release 128 ahead of the Owl in its direction of travel.  On a tick of
    an unfrozen Owl that carries an object and for which this holds,
    [ungrab] is called on the object and the reference is cleared. *)
Theorem drop_on_player
  (env : Collaborators) (dt_sec : float) (w : World) (obj : GameObject) :
  let b := BadGuy_active_update env dt_sec (badguy (owl w)) in
  let w' := exec (active_update env dt_sec) w in
  ACTIVATION_DISTANCE = Float32.of_int 128 /\
  (is_above_player env b = true <-> player_below env b) /\
  (m_frozen b = false ->
   carried_object (owl w) = Some obj ->
   player_below env b ->
   calls w' = calls w ++ [Base_active_update dt_sec;
                          Portable_ungrab obj b (m_dir b)] /\
   carried_object (owl w') = None).
Proof.
  intros b w'. subst b w'.
  split; [reflexivity | ].
  split; [apply is_above_player_iff | ].
  intros Hfrozen Hcarried Hbelow.
  apply is_above_player_iff in Hbelow.
  rewrite (active_update_drop env dt_sec w Hfrozen Hcarried Hbelow).
  split; reflexivity.
Qed.

Lemma drop_on_player_witness :
  let env := Scenario.level (Some Scenario.tux_ahead) Scenario.stop_base in
  let b := Scenario.flying LEFT in
  let w := Scenario.world b "rock" (Some Scenario.crate) in
  let w' := exec (active_update env (Float32.of_int 0)) w in
  m_frozen b = false /\
  carried_object (owl w) = Some Scenario.crate /\
  player_below env b /\
  calls w' = [Base_active_update (Float32.of_int 0);
              Portable_ungrab Scenario.crate b LEFT] /\
  carried_object (owl w') = None.
Proof.
  intros env b w w'.
  destruct (drop_on_player env (Float32.of_int 0) w Scenario.crate)
    as (_ & Hiff & Hdrop).
  assert (Hbelow : player_below env b) by (apply Hiff; reflexivity).
  destruct (Hdrop eq_refl eq_refl Hbelow) as (Hcalls & Hcarried).
  split; [reflexivity | ]. split; [reflexivity | ].
  split; [exact Hbelow | ]. split; [exact Hcalls | exact Hcarried].
Defined.

(** The activation zone lies ahead of the Owl: Tux 120 units ahead of an
    Owl that flies left is below it, Tux 120 units behind it is not, and
    the other way round for an Owl that flies right. *)
Example activation_zone_is_ahead :
  let ahead := Scenario.level (Some Scenario.tux_ahead) Scenario.stop_base in
  let behind := Scenario.level (Some Scenario.tux_behind) Scenario.stop_base in
  is_above_player ahead (Scenario.flying LEFT) = true /\
  is_above_player behind (Scenario.flying LEFT) = false /\
  is_above_player ahead (Scenario.flying RIGHT) = false /\
  is_above_player behind (Scenario.flying RIGHT) = true.
Proof. repeat split. Qed.

(** C4: on a tick of an unfrozen Owl that carries an object while the
    player is not below, the anchor is the bottom anchor of the bounding
    box moved 16 to the left and 3 down; if the anchor's x is at most 16,
    or its x plus 16 is at least the width of the level, [ungrab] is
    called and the reference is cleared; otherwise [grab] is called with
    the anchor and the object stays carried. *)
Theorem carry_or_release_at_edge
  (env : Collaborators) (dt_sec : float) (w : World) (obj : GameObject) :
  let b := BadGuy_active_update env dt_sec (badguy (owl w)) in
  let w' := exec (active_update env dt_sec) w in
  let bottom := get_anchor_pos env (m_bbox b) ANCHOR_BOTTOM in
  let anchor := mkVector (x bottom - Float32.of_int 16)%f32
                         (y bottom + Float32.of_int 3)%f32 in
  m_frozen b = false ->
  carried_object (owl w) = Some obj ->
  is_above_player env b = false ->
  if ((x anchor <=? Float32.of_int 16)
      || (x anchor + Float32.of_int 16 >=? Sector_get_width env))%f32
  then
    calls w' = calls w ++ [Base_active_update dt_sec;
                           Portable_ungrab obj b (m_dir b)] /\
    carried_object (owl w') = None
  else
    calls w' = calls w ++ [Base_active_update dt_sec;
                           Portable_grab obj b anchor (m_dir b)] /\
    carried_object (owl w') = Some obj.
Proof.
  intros b w' bottom anchor Hfrozen Hcarried Habove.
  change anchor with (carry_anchor env b).
  change ((x (carry_anchor env b) <=? Float32.of_int 16)
          || (x (carry_anchor env b) + Float32.of_int 16
                >=? Sector_get_width env))%f32
    with (at_level_edge env (carry_anchor env b)).
  subst w'.
  destruct (at_level_edge env (carry_anchor env b)) eqn:Hedge.
  - rewrite (active_update_edge env dt_sec w Hfrozen Hcarried Habove Hedge).
    split; reflexivity.
  - rewrite (active_update_grab env dt_sec w Hfrozen Hcarried Habove Hedge).
    split; reflexivity.
Qed.

Lemma carry_or_release_at_edge_witness :
  let env := Scenario.level (Some Scenario.tux_behind) Scenario.stop_base in
  let b := Scenario.flying LEFT in
  let w := Scenario.world b "rock" (Some Scenario.crate) in
  let w' := exec (active_update env (Float32.of_int 0)) w in
  m_frozen b = false /\
  carried_object (owl w) = Some Scenario.crate /\
  is_above_player env b = false /\
  calls w' = [Base_active_update (Float32.of_int 0);
              Portable_grab Scenario.crate b
                (mkVector (Float32.of_int 300) (Float32.of_int 135)) LEFT] /\
  carried_object (owl w') = Some Scenario.crate.
Proof.
  intros env b w w'.
  pose proof (carry_or_release_at_edge env (Float32.of_int 0) w
                (obj := Scenario.crate) eq_refl eq_refl eq_refl) as Hgrab.
  do 3 (split; [reflexivity | ]).
  exact Hgrab.
Defined.

(** At the left edge of the level the object is let go. *)
Example release_at_left_edge :
  let env := Scenario.level None Scenario.stop_base in
  let b := mkBadGuy LEFT false
             (mkPhysic (flying_velocity LEFT) (Float32.of_int 0)
                (Float32.of_int 0) false)
             (Scenario.box 12 100 44 132) "left" STATE_ACTIVE in
  let w := Scenario.world b "rock" (Some Scenario.crate) in
  let w' := exec (active_update env (Float32.of_int 0)) w in
  carry_anchor env b = mkVector (Float32.of_int 12) (Float32.of_int 135) /\
  calls w' = [Base_active_update (Float32.of_int 0);
              Portable_ungrab Scenario.crate b LEFT] /\
  carried_object (owl w') = None.
Proof. repeat split. Qed.

(** C9: if there is no nearest player, [is_above_player] is false, so on
    a tick of an unfrozen Owl that carries an object the object is not
    dropped on a player: it is grabbed at the anchor, unless the anchor is
    at an edge of the level, in which case it is let go. *)
Theorem no_player_no_drop
  (env : Collaborators) (dt_sec : float) (w : World) (obj : GameObject) :
  let b := BadGuy_active_update env dt_sec (badguy (owl w)) in
  let w' := exec (active_update env dt_sec) w in
  Sector_get_nearest_player env (m_bbox b) = None ->
  is_above_player env b = false /\
  (m_frozen b = false ->
   carried_object (owl w) = Some obj ->
   (at_level_edge env (carry_anchor env b) = false ->
    calls w' = calls w ++ [Base_active_update dt_sec;
                           Portable_grab obj b (carry_anchor env b)
                             (m_dir b)] /\
    carried_object (owl w') = Some obj) /\
   (at_level_edge env (carry_anchor env b) = true ->
    calls w' = calls w ++ [Base_active_update dt_sec;
                           Portable_ungrab obj b (m_dir b)] /\
    carried_object (owl w') = None)).
Proof.
  intros b w' Hnearest. subst w'.
  pose proof (is_above_player_no_player env b Hnearest) as Habove.
  split; [exact Habove | ].
  intros Hfrozen Hcarried. split; intros Hedge.
  - rewrite (active_update_grab env dt_sec w Hfrozen Hcarried Habove Hedge).
    split; reflexivity.
  - rewrite (active_update_edge env dt_sec w Hfrozen Hcarried Habove Hedge).
    split; reflexivity.
Qed.

Lemma no_player_no_drop_witness :
  let env := Scenario.level None Scenario.stop_base in
  let b := Scenario.flying RIGHT in
  let w := Scenario.world b "rock" (Some Scenario.crate) in
  let w' := exec (active_update env (Float32.of_int 0)) w in
  Sector_get_nearest_player env (m_bbox b) = None /\
  m_frozen b = false /\
  carried_object (owl w) = Some Scenario.crate /\
  at_level_edge env (carry_anchor env b) = false /\
  is_above_player env b = false /\
  calls w' = [Base_active_update (Float32.of_int 0);
              Portable_grab Scenario.crate b
                (mkVector (Float32.of_int 300) (Float32.of_int 135)) RIGHT] /\
  carried_object (owl w') = Some Scenario.crate.
Proof.
  intros env b w w'.
  destruct (no_player_no_drop env (Float32.of_int 0) w Scenario.crate eq_refl)
    as (Habove & Htick).
  destruct (Htick eq_refl eq_refl) as (Hgrab & _).
  do 4 (split; [reflexivity | ]).
  split; [exact Habove | exact (Hgrab eq_refl)].
Defined.

(** ** The reference is set once *)

Section SetOnce.

Variable env : Collaborators.

Lemma save_effect (w : World) :
  exists new, keeps_or_clears w (exec save w) new.
Proof.
  unfold save. run. eexists. split; [reflexivity | ].
  split; [left; reflexivity | reflexivity].
Qed.

Lemma active_update_effect (dt_sec : float) (w : World) :
  exists new, keeps_or_clears w (exec (active_update env dt_sec) w) new.
Proof.
  set (b := BadGuy_active_update env dt_sec (badguy (owl w))).
  destruct (m_frozen b) eqn:Hfrozen.
  { rewrite active_update_idle by (left; exact Hfrozen).
    eexists. split; [reflexivity | ].
    split; [left; reflexivity | reflexivity]. }
  destruct (carried_object (owl w)) as [obj|] eqn:Hcarried.
  2:{ rewrite active_update_idle by (right; exact Hcarried).
      eexists. split; [reflexivity | ].
      split; [left; reflexivity | reflexivity]. }
  destruct (is_above_player env b) eqn:Habove.
  { rewrite (active_update_drop env dt_sec w Hfrozen Hcarried Habove).
    eexists. split; [reflexivity | ].
    split; [right; reflexivity | reflexivity]. }
  destruct (at_level_edge env (carry_anchor env b)) eqn:Hedge.
  - rewrite (active_update_edge env dt_sec w Hfrozen Hcarried Habove Hedge).
    eexists. split; [reflexivity | ].
    split; [right; reflexivity | reflexivity].
  - rewrite (active_update_grab env dt_sec w Hfrozen Hcarried Habove Hedge).
    eexists. split; [reflexivity | ].
    split; [left; symmetry; exact Hcarried | intros Hempty; congruence].
Qed.

Lemma collision_solid_effect (hit : CollisionHit) (w : World) :
  exists new, keeps_or_clears w (exec (collision_solid env hit) w) new.
Proof.
  destruct (m_frozen (badguy (owl w))) eqn:Hfrozen.
  { rewrite (collision_solid_frozen env w hit Hfrozen).
    eexists. split; [reflexivity | ].
    split; [left; reflexivity | reflexivity]. }
  exists []. unfold keeps_or_clears. rewrite app_nil_r.
  destruct (top hit || bottom hit) eqn:Hvert.
  { rewrite (collision_solid_unfrozen_vertical env w hit Hfrozen Hvert).
    split; [reflexivity | ]. split; [left; reflexivity | reflexivity]. }
  destruct (left hit || right hit) eqn:Hlat.
  - rewrite (collision_solid_unfrozen_lateral env w hit Hfrozen Hvert Hlat).
    split; [reflexivity | ]. split; [left; reflexivity | reflexivity].
  - rewrite (collision_solid_unfrozen_none env w hit Hfrozen Hvert Hlat).
    split; [reflexivity | ]. split; [left; reflexivity | reflexivity].
Qed.

Lemma clearing_handlers_effect (w : World) :
  (exists new, keeps_or_clears w (exec (collision_squished env) w) new) /\
  (exists new, keeps_or_clears w (exec (kill_fall env) w) new) /\
  (exists new, keeps_or_clears w (exec (freeze env) w) new) /\
  (exists new, keeps_or_clears w (exec (ignite env) w) new).
Proof.
  rewrite collision_squished_world, kill_fall_world, freeze_world,
    ignite_world.
  unfold keeps_or_clears, bounce_calls. cbn [owl calls carried_object].
  repeat split; eexists;
    (split; [reflexivity | ]);
    (split; [right; reflexivity | ]);
    intros Hcarried; rewrite Hcarried;
    try destruct (Sector_get_nearest_player env (m_bbox (badguy (owl w))));
    reflexivity.
Qed.

Lemma run_op_effect (op : Op) (w : World) :
  is_initialize op = false ->
  exists new, keeps_or_clears w (exec (run_op env op) w) new.
Proof.
  intros Hop.
  destruct (clearing_handlers_effect w)
    as (Hsquish & Hkill & Hfreeze & Hignite).
  destruct op; cbn [run_op]; try discriminate Hop.
  - apply save_effect.
  - apply active_update_effect.
  - rewrite exec_bind, exec_ret. exact Hsquish.
  - exact Hkill.
  - exact Hfreeze.
  - rewrite unfreeze_world. eexists. split; [reflexivity | ].
    split; [left; reflexivity | reflexivity].
  - apply collision_solid_effect.
  - exact Hignite.
Qed.

Lemma run_ops_effect (ops : list Op) (w : World) :
  forallb (fun op => negb (is_initialize op)) ops = true ->
  carried_object (owl w) = None ->
  carried_object (owl (run_ops env ops w)) = None /\
  exists new,
    calls (run_ops env ops w) = calls w ++ new /\ no_grab new = true.
Proof.
  revert w. induction ops as [|op ops IH]; intros w Hops Hempty.
  - split; [exact Hempty | ]. exists []. rewrite app_nil_r. split; reflexivity.
  - cbn [forallb] in Hops. apply andb_true_iff in Hops as [Hop Hops].
    apply negb_true_iff in Hop.
    destruct (run_op_effect op w Hop) as (new & Hcalls & Hkept & Hgrab).
    assert (Hempty' : carried_object (owl (exec (run_op env op) w)) = None)
      by (destruct Hkept as [Hkept | Hkept]; congruence).
    destruct (IH _ Hops Hempty') as (Hfinal & new' & Hcalls' & Hgrab').
    cbn [run_ops]. split; [exact Hfinal | ].
    exists (new ++ new'). split.
    + rewrite Hcalls', Hcalls, app_assoc. reflexivity.
    + unfold no_grab in *. rewrite forallb_app, (Hgrab Hempty), Hgrab'.
      reflexivity.
Qed.

End SetOnce.

(** C5: no operation other than [initialize] sets the carried-object
    reference: each of them keeps it or clears it.  So once the reference
    is empty it stays empty through every later sequence of operations
    without [initialize], and none of the calls made during that sequence
    is a [grab]. *)
Theorem carried_reference_stays_empty
  (env : Collaborators) (ops : list Op) (w : World) :
  forallb (fun op => negb (is_initialize op)) ops = true ->
  (forall op w0,
     In op ops ->
     carried_object (owl (exec (run_op env op) w0)) = carried_object (owl w0)
     \/ carried_object (owl (exec (run_op env op) w0)) = None) /\
  (carried_object (owl w) = None ->
   carried_object (owl (run_ops env ops w)) = None /\
   exists new,
     calls (run_ops env ops w) = calls w ++ new /\ no_grab new = true).
Proof.
  intros Hops. split.
  - intros op w0 Hin.
    rewrite forallb_forall in Hops. specialize (Hops op Hin).
    apply negb_true_iff in Hops.
    destruct (run_op_effect env op w0 Hops) as (new & _ & Hkept & _).
    exact Hkept.
  - intros Hempty. apply run_ops_effect; assumption.
Qed.

Lemma carried_reference_stays_empty_witness :
  let env := Scenario.level (Some Scenario.tux_ahead) Scenario.stop_base in
  let carrying :=
    Scenario.world (Scenario.flying LEFT) "rock" (Some Scenario.crate) in
  let dropped := exec (active_update env (Float32.of_int 0)) carrying in
  let ops := [OpActiveUpdate (Float32.of_int 0);
              OpCollisionSolid (mkCollisionHit true false false false);
              OpActiveUpdate (Float32.of_int 0);
              OpFreeze; OpUnfreeze;
              OpActiveUpdate (Float32.of_int 0);
              OpCollisionSquished] in
  forallb (fun op => negb (is_initialize op)) ops = true /\
  carried_object (owl dropped) = None /\
  carried_object (owl (run_ops env ops dropped)) = None.
Proof.
  intros env carrying dropped ops.
  destruct (carried_reference_stays_empty env ops dropped eq_refl)
    as (_ & Hstays).
  destruct (Hstays eq_refl) as (Hempty & _).
  split; [reflexivity | ]. split; [reflexivity | exact Hempty].
Defined.

(** [initialize] is the operation that sets the reference: with a factory
    that builds a portable object, the Owl carries it afterwards and the
    sector owns it. *)
Example initialize_sets_reference :
  let env := Scenario.level None Scenario.stop_base in
  let w := Scenario.world (Scenario.flying LEFT) "rock" None in
  let w' := exec (initialize env) w in
  carried_object (owl w') = Some Scenario.crate /\
  sector_objects w' = [Scenario.crate] /\
  calls w' = [Sector_add_object Scenario.crate].
Proof. repeat split. Qed.

(** Handlers called on an Owl that carries nothing make no call on a
    portable and still do the rest of their work. *)
Example handlers_without_carried_object :
  let env := Scenario.level None Scenario.stop_base in
  let b := Scenario.flying LEFT in
  let w := Scenario.world b "rock" None in
  calls (exec (freeze env) w) = [Base_freeze] /\
  calls (exec (ignite env) w) = [Base_ignite] /\
  calls (exec (collision_squished env) w)
  = [fall_sound env b; run_dead_script] /\
  eval (collision_squished env) w = true /\
  badguy (owl (exec (kill_fall env) w)) = start_falling b /\
  m_frozen (badguy (owl (exec (freeze env) w))) = true /\
  gravity_enabled (m_physic (badguy (owl (exec (freeze env) w)))) = true.
Proof. repeat split. Qed.

(** * Further properties of the operations *)

(** ** One operation, case by case *)

Lemma save_world (w : World) :
  exec save w =
  mkWorld (owl w) (sector_objects w)
    (calls w ++ [Base_save; Writer_write "carry" (carried_obj_name (owl w))])
    (carried_at_call w ++ [carried_object (owl w); carried_object (owl w)]).
Proof. unfold save. run. reflexivity. Qed.

(** Replace [exec (run_op env op) w] by the world it is, one goal for
    each path through the operation. *)
Ltac op_cases env op w :=
  let Heditor := fresh "Heditor" in
  let Hcreate := fresh "Hcreate" in
  let Hportable := fresh "Hportable" in
  let Hfrozen := fresh "Hfrozen" in
  let Hcarried := fresh "Hcarried" in
  let Habove := fresh "Habove" in
  let Hedge := fresh "Hedge" in
  let Hvert := fresh "Hvert" in
  let Hlat := fresh "Hlat" in
  let g := fresh "g" in
  let obj := fresh "obj" in
  let dt := fresh "dt" in
  let hit := fresh "hit" in
  destruct op as [ | | dt | | | | | hit | ]; cbn [run_op];
  [ destruct (Editor_is_active env) eqn:Heditor;
    [ rewrite (initialize_editor env w Heditor)
    | destruct (GameObjectFactory_create env (carried_obj_name (owl w))
                  (get_pos env (start_flying (badguy (owl w))))
                  (m_dir (badguy (owl w)))) as [g|] eqn:Hcreate;
      [ rewrite (initialize_created env w Heditor Hcreate);
        destruct (go_portable g) eqn:Hportable
      | rewrite (initialize_create_failed env w Heditor Hcreate) ] ]
  | rewrite save_world
  | destruct (m_frozen (after_base_update env dt w)) eqn:Hfrozen;
    [ rewrite (active_update_idle env dt w (or_introl Hfrozen))
    | destruct (carried_object (owl w)) as [obj|] eqn:Hcarried;
      [ destruct (is_above_player env (after_base_update env dt w))
          eqn:Habove;
        [ rewrite (active_update_drop env dt w Hfrozen Hcarried Habove)
        | destruct (at_level_edge env
                      (carry_anchor env (after_base_update env dt w)))
            eqn:Hedge;
          [ rewrite (active_update_edge env dt w Hfrozen Hcarried Habove
                       Hedge)
          | rewrite (active_update_grab env dt w Hfrozen Hcarried Habove
                       Hedge) ] ]
      | rewrite (active_update_idle env dt w (or_intror Hcarried)) ] ]
  | rewrite exec_bind, exec_ret, collision_squished_world;
    unfold bounce_calls;
    destruct (Sector_get_nearest_player env (m_bbox (badguy (owl w))));
    destruct (carried_object (owl w)) as [obj|] eqn:Hcarried
  | rewrite kill_fall_world;
    destruct (carried_object (owl w)) as [obj|] eqn:Hcarried
  | rewrite freeze_world;
    destruct (carried_object (owl w)) as [obj|] eqn:Hcarried
  | rewrite unfreeze_world
  | destruct (m_frozen (badguy (owl w))) eqn:Hfrozen;
    [ rewrite (collision_solid_frozen env w hit Hfrozen)
    | destruct (top hit || bottom hit) eqn:Hvert;
      [ rewrite (collision_solid_unfrozen_vertical env w hit Hfrozen Hvert)
      | destruct (left hit || right hit) eqn:Hlat;
        [ rewrite (collision_solid_unfrozen_lateral env w hit Hfrozen Hvert
                     Hlat)
        | rewrite (collision_solid_unfrozen_none env w hit Hfrozen Hvert
                     Hlat) ] ] ]
  | rewrite ignite_world;
    destruct (carried_object (owl w)) as [obj|] eqn:Hcarried ];
  cbn [owl badguy carried_object carried_obj_name sector_objects calls
       carried_at_call app].

(** ** Invariants of sequences of operations *)

(** Every call leaves one entry in [carried_at_call]. *)
Lemma step_carried_at_call (env : Collaborators) (op : Op) (w : World) :
  List.length (carried_at_call w) = List.length (calls w) ->
  List.length (carried_at_call (exec (run_op env op) w))
  = List.length (calls (exec (run_op env op) w)).
Proof.
  intros Hlen.
  op_cases env op w; rewrite ?length_app, ?Hlen; reflexivity.
Qed.

Lemma run_ops_invariant (env : Collaborators) (Q : Op -> Prop)
  (P : World -> Prop) :
  (forall op w, Q op -> P w -> P (exec (run_op env op) w)) ->
  forall ops w, Forall Q ops -> P w -> P (run_ops env ops w).
Proof.
  intros Hstep ops. induction ops as [|op ops IH]; intros w Hops Hw.
  - exact Hw.
  - inversion Hops as [|op' ops' Hop Hops']; subst.
    cbn [run_ops]. apply IH; [exact Hops' | ]. apply Hstep; assumption.
Qed.

Lemma Forall_any_op (ops : list Op) : Forall (fun _ => True) ops.
Proof. induction ops; constructor; auto. Qed.

Lemma count_ungrab_app (cs cs' : list Call) :
  count_ungrab (cs ++ cs') = count_ungrab cs + count_ungrab cs'.
Proof. unfold count_ungrab. rewrite filter_app, length_app. reflexivity. Qed.

Section Sequences.

Variable env : Collaborators.

Lemma step_owned (op : Op) (w : World) :
  carried_is_owned w -> carried_is_owned (exec (run_op env op) w).
Proof.
  unfold carried_is_owned. intros Howned.
  op_cases env op w; intros o Ho;
    try discriminate Ho;
    try (apply in_or_app; right; injection Ho as <-; left; reflexivity);
    try (apply Howned; congruence).
Qed.

Lemma step_name (op : Op) (w : World) :
  carried_obj_name (owl (exec (run_op env op) w)) = carried_obj_name (owl w).
Proof. op_cases env op w; reflexivity. Qed.

Lemma step_sector (op : Op) (w : World) :
  exists added,
    sector_objects (exec (run_op env op) w) = sector_objects w ++ added /\
    List.length added <= (if is_initialize op then 1 else 0) /\
    (Editor_is_active env = true -> added = []).
Proof.
  op_cases env op w; cbn [is_initialize];
    first
      [ exists []; rewrite app_nil_r;
        split; [reflexivity | split; [apply Nat.le_0_l | reflexivity]]
      | eexists; split; [reflexivity | ];
        split; [apply Nat.le_refl | congruence] ].
Qed.

Lemma step_keeps_or_clears_editor (op : Op) (w : World) :
  Editor_is_active env = true ->
  carried_object (owl (exec (run_op env op) w)) = carried_object (owl w)
  \/ carried_object (owl (exec (run_op env op) w)) = None.
Proof.
  intros Heditor.
  op_cases env op w; try congruence;
    first [left; reflexivity | right; reflexivity | left; congruence].
Qed.

Lemma step_released (op : Op) (w : World) :
  is_initialize op = false ->
  exists new,
    calls (exec (run_op env op) w) = calls w ++ new /\
    count_ungrab new = released_count w (exec (run_op env op) w) /\
    Forall (fun c => portable_target c = None
                     \/ portable_target c = carried_object (owl w)) new /\
    (carried_object (owl (exec (run_op env op) w)) = carried_object (owl w)
     \/ carried_object (owl (exec (run_op env op) w)) = None).
Proof.
  intros Hop. unfold released_count.
  op_cases env op w; try discriminate Hop;
    try destruct (carried_object (owl w));
    (first [ exists []; rewrite app_nil_r; split; [reflexivity | ]
           | eexists; split; [reflexivity | ] ]);
    (split; [reflexivity | ]);
    (split;
     [ repeat constructor;
       first [left; reflexivity | right; reflexivity | right; congruence]
     | first [left; reflexivity | right; reflexivity | left; congruence] ]).
Qed.

Lemma step_grab_ok (op : Op) (w : World) :
  exists new,
    calls (exec (run_op env op) w) = calls w ++ new /\
    Forall (grab_ok env) new.
Proof.
  op_cases env op w;
    (first [ exists []; rewrite app_nil_r; split; [reflexivity | ]
           | eexists; split; [reflexivity | ] ]);
    repeat constructor; cbn [grab_ok]; auto.
Qed.

End Sequences.

(** X1: whatever the Owl carries is one of the objects of the sector, and
    every operation, [initialize] included, keeps it so; in particular it
    holds through the whole life of an Owl that has just been
    constructed. *)
Theorem carried_object_is_owned
  (env : Collaborators) (ops : list Op) (w : World) :
  (carried_is_owned w -> carried_is_owned (run_ops env ops w)) /\
  (forall base carry objects cs refs,
     carried_is_owned
       (run_ops env ops (mkWorld (Owl_new base carry) objects cs refs))).
Proof.
  assert (Hinv : forall w0,
            carried_is_owned w0 -> carried_is_owned (run_ops env ops w0)).
  { intros w0 Hw0.
    apply (@run_ops_invariant env (fun _ => True)
             carried_is_owned).
    - intros op w1 _. apply step_owned.
    - apply Forall_any_op.
    - exact Hw0. }
  split; [apply Hinv | ].
  intros base carry objects cs refs. apply Hinv.
  intros obj Hobj. discriminate Hobj.
Qed.

Lemma carried_object_is_owned_witness :
  let env := Scenario.level None Scenario.stop_base in
  let w := Scenario.world (Scenario.flying LEFT) "rock"
             (Some Scenario.crate) in
  let ops := [OpActiveUpdate (Float32.of_int 0); OpInitialize;
              OpCollisionSolid (mkCollisionHit true false false false);
              OpInitialize; OpFreeze] in
  carried_is_owned w /\ carried_is_owned (run_ops env ops w).
Proof.
  intros env w ops.
  assert (Hw : carried_is_owned w).
  { intros obj Hobj. injection Hobj as <-. left. reflexivity. }
  split; [exact Hw | ].
  exact (proj1 (carried_object_is_owned env ops w) Hw).
Defined.

(** X2: the Owl never takes an object out of the sector and adds at most
    one per call of [initialize]: after any sequence of operations the
    objects of the sector are the former ones, in order, followed by no
    more new ones than the sequence has calls of [initialize]. *)
Theorem sector_only_grows
  (env : Collaborators) (ops : list Op) (w : World) :
  exists added,
    sector_objects (run_ops env ops w) = sector_objects w ++ added /\
    List.length added <= count_initialize ops.
Proof.
  revert w. induction ops as [|op ops IH]; intros w.
  - exists []. rewrite app_nil_r. split; [reflexivity | apply Nat.le_0_l].
  - cbn [run_ops].
    destruct (step_sector env op w) as (added1 & Hadded1 & Hlen1 & _).
    destruct (IH (exec (run_op env op) w)) as (added2 & Hadded2 & Hlen2).
    exists (added1 ++ added2). split.
    + rewrite Hadded2, Hadded1, app_assoc. reflexivity.
    + rewrite length_app. unfold count_initialize in *. cbn [filter].
      destruct (is_initialize op); cbn [List.length];
        exact (Nat.add_le_mono _ _ _ _ Hlen1 Hlen2).
Qed.

(** X3: in the editor no sequence of operations, whatever the number of
    calls of [initialize] in it, changes the objects of the sector, and
    the carried-object reference is never set: it is kept or cleared. *)
Theorem editor_never_adds
  (env : Collaborators) (ops : list Op) (w : World) :
  Editor_is_active env = true ->
  sector_objects (run_ops env ops w) = sector_objects w /\
  (carried_object (owl (run_ops env ops w)) = carried_object (owl w)
   \/ carried_object (owl (run_ops env ops w)) = None).
Proof.
  intros Heditor.
  apply (@run_ops_invariant env (fun _ => True)
           (fun w' =>
                   sector_objects w' = sector_objects w /\
                   (carried_object (owl w') = carried_object (owl w)
                    \/ carried_object (owl w') = None))).
  - intros op w1 _ (Hsector & Hkept).
    destruct (step_sector env op w1) as (added & Hadded & _ & Hnone).
    rewrite (Hnone Heditor), app_nil_r in Hadded.
    split; [congruence | ].
    destruct (step_keeps_or_clears_editor env op w1 Heditor) as [Hstep|Hstep];
      [ | right; exact Hstep].
    destruct Hkept as [Hkept|Hkept]; [left | right]; congruence.
  - apply Forall_any_op.
  - split; [reflexivity | left; reflexivity].
Qed.

Lemma editor_never_adds_witness :
  let w := Scenario.world (Scenario.flying LEFT) "rock" None in
  let ops := [OpInitialize; OpActiveUpdate (Float32.of_int 0);
              OpInitialize; OpSave] in
  Editor_is_active Scenario.editor_level = true /\
  sector_objects (run_ops Scenario.editor_level ops w) = [] /\
  carried_object (owl (run_ops Scenario.editor_level ops w)) = None.
Proof.
  intros w ops.
  destruct (editor_never_adds Scenario.editor_level ops w eq_refl)
    as (Hsector & Hcarried).
  split; [reflexivity | ]. split; [exact Hsector | ].
  destruct Hcarried as [Hcarried|Hcarried]; exact Hcarried.
Defined.

(** X4: over any sequence of operations without [initialize], [ungrab]
    is called exactly once if the Owl carried an object at the start and
    carries none at the end, and not at all otherwise; and every call on
    a portable is made on the object carried at the start. *)
Theorem ungrab_exactly_when_released
  (env : Collaborators) (ops : list Op) (w : World) :
  Forall (fun op => is_initialize op = false) ops ->
  exists new,
    calls (run_ops env ops w) = calls w ++ new /\
    count_ungrab new = released_count w (run_ops env ops w) /\
    Forall (fun c => portable_target c = None
                     \/ portable_target c = carried_object (owl w)) new.
Proof.
  intros Hops.
  cut (exists new,
         calls (run_ops env ops w) = calls w ++ new /\
         count_ungrab new = released_count w (run_ops env ops w) /\
         Forall (fun c => portable_target c = None
                          \/ portable_target c = carried_object (owl w)) new /\
         (carried_object (owl (run_ops env ops w)) = carried_object (owl w)
          \/ carried_object (owl (run_ops env ops w)) = None)).
  { intros (new & Hcalls & Hcount & Htargets & _). exists new. auto. }
  apply (@run_ops_invariant env (fun op => is_initialize op = false)
           (fun w' =>
              exists new,
                calls w' = calls w ++ new /\
                count_ungrab new = released_count w w' /\
                Forall (fun c => portable_target c = None
                                 \/ portable_target c = carried_object (owl w))
                       new /\
                (carried_object (owl w') = carried_object (owl w)
                 \/ carried_object (owl w') = None))).
  - intros op w1 Hop (new & Hcalls & Hcount & Htargets & Hkept).
    destruct (step_released env op w1 Hop)
      as (new' & Hcalls' & Hcount' & Htargets' & Hkept').
    exists (new ++ new'). split; [ | split; [ | split]].
    + rewrite Hcalls', Hcalls, app_assoc. reflexivity.
    + rewrite count_ungrab_app, Hcount, Hcount'. unfold released_count.
      destruct (carried_object (owl w)),
        (carried_object (owl w1)),
        (carried_object (owl (exec (run_op env op) w1)));
        try reflexivity; exfalso;
        destruct Hkept as [Hkept|Hkept], Hkept' as [Hkept'|Hkept'];
        congruence.
    + apply Forall_app. split; [exact Htargets | ].
      apply (Forall_impl _ (P := fun c =>
               portable_target c = None
               \/ portable_target c = carried_object (owl w1)));
        [ | exact Htargets'].
      intros c [Hc|Hc]; [left; exact Hc | ].
      destruct Hkept as [Hkept|Hkept]; [right | left]; congruence.
    + destruct Hkept' as [Hkept'|Hkept']; [ | right; exact Hkept'].
      destruct Hkept as [Hkept|Hkept]; [left | right]; congruence.
  - exact Hops.
  - exists []. rewrite app_nil_r. split; [reflexivity | ].
    split; [ | split; [constructor | left; reflexivity]].
    unfold released_count. destruct (carried_object (owl w)); reflexivity.
Qed.

Lemma ungrab_exactly_when_released_witness :
  let env := Scenario.level (Some Scenario.tux_behind) Scenario.stop_base in
  let w := Scenario.world (Scenario.flying LEFT) "rock"
             (Some Scenario.crate) in
  let ops := [OpActiveUpdate (Float32.of_int 0); OpFreeze; OpUnfreeze;
              OpActiveUpdate (Float32.of_int 0); OpCollisionSquished;
              OpKillFall; OpIgnite] in
  Forall (fun op => is_initialize op = false) ops /\
  exists new,
    calls (run_ops env ops w) = new /\ count_ungrab new = 1.
Proof.
  intros env w ops.
  assert (Hops : Forall (fun op => is_initialize op = false) ops)
    by (repeat constructor).
  split; [exact Hops | ].
  destruct (ungrab_exactly_when_released env w Hops)
    as (new & Hcalls & Hcount & _).
  exists new. split; [exact Hcalls | exact Hcount].
Defined.

(** X5: the Owl never grabs while frozen, never while the player is
    below it, and never at an edge of the level: in every [grab] made
    during any sequence of operations the Owl handed over is not frozen
    and flies in the direction handed over, the player is not below it,
    and the position is its carry anchor, which is away from the edges. *)
Theorem grabs_are_safe
  (env : Collaborators) (ops : list Op) (w : World) :
  exists new,
    calls (run_ops env ops w) = calls w ++ new /\
    Forall (grab_ok env) new.
Proof.
  apply (@run_ops_invariant env (fun _ => True)
           (fun w' =>
                   exists new,
                     calls w' = calls w ++ new /\ Forall (grab_ok env) new)).
  - intros op w1 _ (new & Hcalls & Hok).
    destruct (step_grab_ok env op w1) as (new' & Hcalls' & Hok').
    exists (new ++ new'). split.
    + rewrite Hcalls', Hcalls, app_assoc. reflexivity.
    + apply Forall_app. split; assumption.
  - apply Forall_any_op.
  - exists []. rewrite app_nil_r. split; [reflexivity | constructor].
Qed.

(** X6: the name of the carried class never changes: after any sequence
    of operations [save] writes the [carry] entry the Owl had at the
    start, after the entries of the base class, and changes neither the
    Owl nor the sector. *)
Theorem save_writes_configured_name
  (env : Collaborators) (ops : list Op) (w : World) :
  let w' := run_ops env ops w in
  carried_obj_name (owl w') = carried_obj_name (owl w) /\
  exec save w' =
  mkWorld (owl w') (sector_objects w')
    (calls w' ++ [Base_save; Writer_write "carry" (carried_obj_name (owl w))])
    (carried_at_call w'
       ++ [carried_object (owl w'); carried_object (owl w')]).
Proof.
  intros w'.
  assert (Hname : carried_obj_name (owl w') = carried_obj_name (owl w)).
  { apply (@run_ops_invariant env (fun _ => True)
             (fun w1 =>
                     carried_obj_name (owl w1) = carried_obj_name (owl w))).
    - intros op w1 _ Hw1. rewrite step_name. exact Hw1.
    - apply Forall_any_op.
    - reflexivity. }
  split; [exact Hname | ]. rewrite save_world, Hname. reflexivity.
Qed.

(** ** Single operations and how they compose *)

Lemma start_flying_idempotent (b : BadGuy) :
  start_flying (start_flying b) = start_flying b.
Proof. reflexivity. Qed.

Lemma start_falling_idempotent (b : BadGuy) :
  start_falling (start_falling b) = start_falling b.
Proof. reflexivity. Qed.

(** X7: a tick writes nothing to the Owl beyond what the update of the
    base class did, leaves the sector alone, and makes at most one call
    on a portable: none if the Owl is frozen or carries nothing, else
    exactly one, an [ungrab] that clears the reference or a [grab] at the
    carry anchor that keeps it. *)
Theorem active_update_one_portable_call
  (env : Collaborators) (dt_sec : float) (w : World) :
  let b := BadGuy_active_update env dt_sec (badguy (owl w)) in
  let w' := exec (active_update env dt_sec) w in
  badguy (owl w') = b /\
  sector_objects w' = sector_objects w /\
  exists rest,
    calls w' = calls w ++ Base_active_update dt_sec :: rest /\
    match carried_object (owl w) with
    | None => rest = [] /\ carried_object (owl w') = None
    | Some obj =>
        if m_frozen b then rest = [] /\ carried_object (owl w') = Some obj
        else
          (rest = [Portable_ungrab obj b (m_dir b)]
           /\ carried_object (owl w') = None)
          \/ (rest = [Portable_grab obj b (carry_anchor env b) (m_dir b)]
              /\ carried_object (owl w') = Some obj)
    end.
Proof.
  intros b w'. subst w'.
  change b with (after_base_update env dt_sec w).
  destruct (m_frozen (after_base_update env dt_sec w)) eqn:Hfrozen.
  { rewrite (active_update_idle env dt_sec w (or_introl Hfrozen)).
    cbn [owl badguy sector_objects calls carried_object].
    do 2 (split; [reflexivity | ]). exists []. split; [reflexivity | ].
    destruct (carried_object (owl w)); split; reflexivity. }
  destruct (carried_object (owl w)) as [obj|] eqn:Hcarried.
  2:{ rewrite (active_update_idle env dt_sec w (or_intror Hcarried)).
      cbn [owl badguy sector_objects calls carried_object].
      do 2 (split; [reflexivity | ]). exists [].
      split; [reflexivity | split; [reflexivity | exact Hcarried]]. }
  destruct (is_above_player env (after_base_update env dt_sec w)) eqn:Habove.
  { rewrite (active_update_drop env dt_sec w Hfrozen Hcarried Habove).
    do 2 (split; [reflexivity | ]). eexists.
    split; [reflexivity | left; split; reflexivity]. }
  destruct (at_level_edge env
              (carry_anchor env (after_base_update env dt_sec w))) eqn:Hedge.
  - rewrite (active_update_edge env dt_sec w Hfrozen Hcarried Habove Hedge).
    do 2 (split; [reflexivity | ]). eexists.
    split; [reflexivity | left; split; reflexivity].
  - rewrite (active_update_grab env dt_sec w Hfrozen Hcarried Habove Hedge).
    do 2 (split; [reflexivity | ]). eexists.
    split; [reflexivity | right; split; reflexivity].
Qed.

(** X8: outside the editor, with a factory that builds a portable object
    for the Owl, every call of [initialize] hands one more object to the
    sector and points the reference to it; a second call does not call
    [ungrab] for the object of the first, which stays in the sector. *)
Theorem initialize_adds_each_time
  (env : Collaborators) (w : World) (g : GameObject) :
  Editor_is_active env = false ->
  GameObjectFactory_create env (carried_obj_name (owl w))
    (get_pos env (start_flying (badguy (owl w)))) (m_dir (badguy (owl w)))
  = Some g ->
  go_portable g = true ->
  let w1 := exec (initialize env) w in
  let w2 := exec (initialize env) w1 in
  (carried_object (owl w1) = Some g /\
   sector_objects w1 = sector_objects w ++ [g] /\
   calls w1 = calls w ++ [Sector_add_object g]) /\
  (carried_object (owl w2) = Some g /\
   sector_objects w2 = sector_objects w ++ [g; g] /\
   calls w2 = calls w ++ [Sector_add_object g; Sector_add_object g]) /\
  badguy (owl w2) = badguy (owl w1).
Proof.
  intros Heditor Hcreate Hportable w1 w2.
  assert (Hw1 : w1 =
            mkWorld (mkOwl (start_flying (badguy (owl w)))
                           (carried_obj_name (owl w)) (Some g))
                    (sector_objects w ++ [g])
                    (calls w ++ [Sector_add_object g])
                    (carried_at_call w ++ [Some g])).
  { subst w1. rewrite (initialize_created env w Heditor Hcreate), Hportable.
    reflexivity. }
  assert (Hcreate1 :
            GameObjectFactory_create env (carried_obj_name (owl w1))
              (get_pos env (start_flying (badguy (owl w1))))
              (m_dir (badguy (owl w1))) = Some g).
  { rewrite Hw1. cbn [owl badguy carried_obj_name].
    rewrite start_flying_idempotent. exact Hcreate. }
  subst w2. rewrite (initialize_created env w1 Heditor Hcreate1), Hportable.
  rewrite Hw1. cbn [owl badguy carried_object carried_obj_name sector_objects
                    calls].
  rewrite <- !app_assoc. repeat split.
Qed.

Lemma initialize_adds_each_time_witness :
  let env := Scenario.level None Scenario.stop_base in
  let w := Scenario.world (Scenario.flying LEFT) "rock" None in
  let w2 := exec (initialize env) (exec (initialize env) w) in
  Editor_is_active env = false /\
  GameObjectFactory_create env (carried_obj_name (owl w))
    (get_pos env (start_flying (badguy (owl w)))) (m_dir (badguy (owl w)))
  = Some Scenario.crate /\
  go_portable Scenario.crate = true /\
  sector_objects w2 = [Scenario.crate; Scenario.crate] /\
  calls w2 = [Sector_add_object Scenario.crate;
              Sector_add_object Scenario.crate].
Proof.
  intros env w w2.
  destruct (initialize_adds_each_time env w (g := Scenario.crate)
              eq_refl eq_refl eq_refl) as (_ & (_ & Hsector & Hcalls) & _).
  do 3 (split; [reflexivity | ]). split; [exact Hsector | exact Hcalls].
Defined.

(** X9: outside the editor, when the factory cannot build the configured
    class, [initialize] logs the fatal message that quotes the class name
    and nothing else happens to the carrying: the reference is left as it
    was (it is not cleared), the sector is unchanged, and the Owl is set
    flying all the same. *)
Theorem initialize_creation_failure (env : Collaborators) (w : World) :
  Editor_is_active env = false ->
  GameObjectFactory_create env (carried_obj_name (owl w))
    (get_pos env (start_flying (badguy (owl w)))) (m_dir (badguy (owl w)))
  = None ->
  let w' := exec (initialize env) w in
  calls w' = calls w ++ [log_fatal ("Creating " ++ dquote
                                      ++ carried_obj_name (owl w)
                                      ++ dquote ++ " object failed.")] /\
  carried_object (owl w') = carried_object (owl w) /\
  sector_objects w' = sector_objects w /\
  badguy (owl w') = start_flying (badguy (owl w)) /\
  gravity_enabled (m_physic (badguy (owl w'))) = false /\
  velocity_matches_dir (badguy (owl w')) = true.
Proof.
  intros Heditor Hcreate w'. subst w'.
  rewrite (initialize_create_failed env w Heditor Hcreate).
  cbn [owl badguy carried_object sector_objects calls].
  do 5 (split; [reflexivity | ]). apply start_flying_matches.
Qed.

Lemma initialize_creation_failure_witness :
  let env := Scenario.bare_level in
  let w := Scenario.world (Scenario.flying RIGHT) "rock"
             (Some Scenario.crate) in
  let w' := exec (initialize env) w in
  Editor_is_active env = false /\
  GameObjectFactory_create env (carried_obj_name (owl w))
    (get_pos env (start_flying (badguy (owl w)))) (m_dir (badguy (owl w)))
  = None /\
  calls w' = [log_fatal ("Creating " ++ dquote ++ "rock" ++ dquote
                           ++ " object failed.")] /\
  carried_object (owl w') = Some Scenario.crate /\
  sector_objects w' = [Scenario.crate].
Proof.
  intros env w w'.
  destruct (initialize_creation_failure env w eq_refl eq_refl)
    as (Hcalls & Hcarried & Hsector & _).
  do 2 (split; [reflexivity | ]).
  split; [exact Hcalls | ]. split; [exact Hcarried | exact Hsector].
Defined.

(** X10: two lateral collisions in a row bring an unfrozen Owl back to
    its direction, with the flying speed and the facing action of that
    direction; an Owl that was in flight is exactly as before, and so is
    the world. *)
Theorem two_lateral_collisions_restore
  (env : Collaborators) (w : World) (hit1 hit2 : CollisionHit) :
  m_frozen (badguy (owl w)) = false ->
  top hit1 || bottom hit1 = false -> left hit1 || right hit1 = true ->
  top hit2 || bottom hit2 = false -> left hit2 || right hit2 = true ->
  let b := badguy (owl w) in
  let w2 :=
    exec (collision_solid env hit2) (exec (collision_solid env hit1) w) in
  m_dir (badguy (owl w2)) = m_dir b /\
  velocity_x (m_physic (badguy (owl w2))) = flying_velocity (m_dir b) /\
  m_action (badguy (owl w2)) = facing (m_dir b) /\
  (in_flight b -> w2 = w).
Proof.
  intros Hfrozen Hvert1 Hlat1 Hvert2 Hlat2 b w2. subst b w2.
  rewrite (collision_solid_unfrozen_lateral env w hit1 Hfrozen Hvert1 Hlat1).
  rewrite collision_solid_unfrozen_lateral; try assumption.
  destruct w as [[[d frozen [vx vy ay gravity] bbox action state] name carried]
                   objects cs].
  cbn [owl badguy carried_object carried_obj_name sector_objects calls
       m_dir m_frozen m_physic m_bbox m_action m_state velocity_x velocity_y
       acceleration_y gravity_enabled set_velocity_x set_dir set_action
       with_physic] in *.
  destruct d; cbn [opposite].
  all: do 3 (split; [reflexivity | ]).
  all: intros [Hvx Haction]; cbn [m_dir m_physic velocity_x m_action] in *.
  all: subst vx action; reflexivity.
Qed.

Lemma two_lateral_collisions_restore_witness :
  let env := Scenario.level None Scenario.stop_base in
  let w := Scenario.world (Scenario.flying LEFT) "rock"
             (Some Scenario.crate) in
  let hit1 := mkCollisionHit true false false false in
  let hit2 := mkCollisionHit false true false false in
  m_frozen (badguy (owl w)) = false /\
  top hit1 || bottom hit1 = false /\ left hit1 || right hit1 = true /\
  top hit2 || bottom hit2 = false /\ left hit2 || right hit2 = true /\
  in_flight (badguy (owl w)) /\
  exec (collision_solid env hit2) (exec (collision_solid env hit1) w) = w.
Proof.
  intros env w hit1 hit2.
  destruct (two_lateral_collisions_restore env w hit1 hit2
              eq_refl eq_refl eq_refl eq_refl eq_refl) as (_ & _ & _ & Hback).
  assert (Hflight : in_flight (badguy (owl w))) by (split; reflexivity).
  do 5 (split; [reflexivity | ]).
  split; [exact Hflight | exact (Hback Hflight)].
Defined.

(** X11: a squished Owl ends exactly as [kill_fall] leaves it, whether
    or not a player is there to bounce: it returns [true], the Owl falls
    (falling state, gravity on, vertical velocity and acceleration zero),
    carries nothing, and direction, horizontal velocity, frozen flag and
    sector are untouched. *)
Theorem squished_owl_falls (env : Collaborators) (w : World) :
  let b := badguy (owl w) in
  let w' := exec (collision_squished env) w in
  eval (collision_squished env) w = true /\
  owl w' = owl (exec (kill_fall env) w) /\
  sector_objects w' = sector_objects w /\
  carried_object (owl w') = None /\
  m_state (badguy (owl w')) = STATE_FALLING /\
  gravity_enabled (m_physic (badguy (owl w'))) = true /\
  velocity_y (m_physic (badguy (owl w'))) = Float32.of_int 0 /\
  acceleration_y (m_physic (badguy (owl w'))) = Float32.of_int 0 /\
  velocity_x (m_physic (badguy (owl w'))) = velocity_x (m_physic b) /\
  m_dir (badguy (owl w')) = m_dir b /\
  m_frozen (badguy (owl w')) = m_frozen b.
Proof.
  intros b w'. subst b w'. split.
  - unfold collision_squished, kill_fall. run.
    destruct (Sector_get_nearest_player env (m_bbox (badguy (owl w)))); run;
      destruct (carried_object (owl w)) eqn:Hcarried; run;
      rewrite ?Hcarried; run; reflexivity.
  - rewrite collision_squished_world, kill_fall_world. repeat split.
Qed.

(** X12: [kill_fall] called again changes nothing in the Owl or in the
    sector and never calls [ungrab] a second time, but it does play the
    fall sound and run the dead script once more. *)
Theorem kill_fall_again (env : Collaborators) (w : World) :
  let w1 := exec (kill_fall env) w in
  let w2 := exec (kill_fall env) w1 in
  owl w2 = owl w1 /\
  sector_objects w2 = sector_objects w /\
  calls w2 = calls w1 ++ [fall_sound env (badguy (owl w1)); run_dead_script].
Proof.
  intros w1 w2. subst w2 w1. rewrite !kill_fall_world.
  cbn [owl badguy carried_object carried_obj_name sector_objects calls].
  rewrite start_falling_idempotent. repeat split.
Qed.

(** X13: a solid collision never releases the carried object and never
    touches the sector.  On an unfrozen Owl it makes no call at all,
    keeps the Owl unfrozen and in place, and does nothing whatever if the
    hit reports no side; on a frozen Owl it only runs the handler of the
    base class. *)
Theorem collision_solid_keeps_cargo
  (env : Collaborators) (w : World) (hit : CollisionHit) :
  let b := badguy (owl w) in
  let w' := exec (collision_solid env hit) w in
  carried_object (owl w') = carried_object (owl w) /\
  sector_objects w' = sector_objects w /\
  (m_frozen b = false ->
   calls w' = calls w /\
   m_frozen (badguy (owl w')) = false /\
   m_bbox (badguy (owl w')) = m_bbox b /\
   gravity_enabled (m_physic (badguy (owl w')))
   = gravity_enabled (m_physic b) /\
   (top hit || bottom hit || left hit || right hit = false -> w' = w)) /\
  (m_frozen b = true ->
   calls w' = calls w ++ [Base_collision_solid hit] /\
   badguy (owl w') = BadGuy_collision_solid env hit b).
Proof.
  intros b w'. subst b w'.
  destruct (m_frozen (badguy (owl w))) eqn:Hfrozen.
  { rewrite (collision_solid_frozen env w hit Hfrozen).
    do 2 (split; [reflexivity | ]).
    split; [discriminate | intros _; split; reflexivity]. }
  destruct (top hit || bottom hit) eqn:Hvert.
  { rewrite (collision_solid_unfrozen_vertical env w hit Hfrozen Hvert).
    do 2 (split; [reflexivity | ]). split; [ | discriminate].
    intros _. do 4 (split; [reflexivity || exact Hfrozen | ]).
    discriminate. }
  destruct (left hit || right hit) eqn:Hlat.
  - rewrite (collision_solid_unfrozen_lateral env w hit Hfrozen Hvert Hlat).
    do 2 (split; [reflexivity | ]). split; [ | discriminate].
    intros _. do 4 (split; [reflexivity || exact Hfrozen | ]).
    cbn [orb]. rewrite Hlat. discriminate.
  - rewrite (collision_solid_unfrozen_none env w hit Hfrozen Hvert Hlat).
    do 2 (split; [reflexivity | ]). split; [ | discriminate].
    intros _. do 4 (split; [reflexivity || exact Hfrozen | ]).
    intros _. reflexivity.
Qed.

Lemma collision_solid_keeps_cargo_witness :
  let env := Scenario.level None Scenario.stop_base in
  let w := Scenario.world (Scenario.flying LEFT) "rock"
             (Some Scenario.crate) in
  let hit := mkCollisionHit true false false false in
  let w' := exec (collision_solid env hit) w in
  m_frozen (badguy (owl w)) = false /\
  carried_object (owl w') = Some Scenario.crate /\
  calls w' = [] /\
  m_dir (badguy (owl w')) = RIGHT.
Proof.
  intros env w hit w'.
  destruct (collision_solid_keeps_cargo env w hit)
    as (Hcarried & _ & Hunfrozen & _).
  destruct (Hunfrozen eq_refl) as (Hcalls & _).
  split; [reflexivity | ]. split; [exact Hcarried | ].
  split; [exact Hcalls | reflexivity].
Defined.

(** X15: freezing and then unfreezing an Owl that carries an object
    puts it back in flight without its cargo: [ungrab] is called once,
    before the base class freezes the Owl, the reference stays empty,
    gravity is off again, the Owl flies at flying speed in its direction
    with the facing action, and its next tick calls no portable. *)
Theorem freeze_unfreeze_loses_cargo
  (env : Collaborators) (dt_sec : float) (w : World) (obj : GameObject) :
  carried_object (owl w) = Some obj ->
  let b := badguy (owl w) in
  let w2 := exec (unfreeze env) (exec (freeze env) w) in
  calls w2 = calls w ++ [Portable_ungrab obj b (m_dir b);
                         Base_freeze; Base_unfreeze] /\
  carried_object (owl w2) = None /\
  sector_objects w2 = sector_objects w /\
  gravity_enabled (m_physic (badguy (owl w2))) = false /\
  in_flight (badguy (owl w2)) /\
  velocity_matches_dir (badguy (owl w2)) = true /\
  calls (exec (active_update env dt_sec) w2)
  = calls w2 ++ [Base_active_update dt_sec].
Proof.
  intros Hcarried b w2. subst b w2.
  assert (Hnone : carried_object
                    (owl (exec (unfreeze env) (exec (freeze env) w))) = None)
    by (rewrite unfreeze_world, freeze_world; reflexivity).
  rewrite (active_update_idle env dt_sec _ (or_intror Hnone)).
  rewrite unfreeze_world, freeze_world, Hcarried.
  cbn [owl badguy carried_object carried_obj_name sector_objects calls].
  rewrite <- !app_assoc.
  do 4 (split; [reflexivity | ]).
  split; [split; reflexivity | ].
  split; [apply start_flying_matches | reflexivity].
Qed.

Lemma freeze_unfreeze_loses_cargo_witness :
  let env := Scenario.level None Scenario.stop_base in
  let b := Scenario.flying RIGHT in
  let w := Scenario.world b "rock" (Some Scenario.crate) in
  let w2 := exec (unfreeze env) (exec (freeze env) w) in
  carried_object (owl w) = Some Scenario.crate /\
  calls w2 = [Portable_ungrab Scenario.crate b RIGHT;
              Base_freeze; Base_unfreeze] /\
  carried_object (owl w2) = None /\
  badguy (owl w2) = b.
Proof.
  intros env b w w2.
  destruct (freeze_unfreeze_loses_cargo env (Float32.of_int 0) w
              (obj := Scenario.crate) eq_refl) as (Hcalls & Hcarried & _).
  split; [reflexivity | ]. split; [exact Hcalls | ].
  split; [exact Hcarried | reflexivity].
Defined.

(** X16: whatever the Owl carried before, after [collision_squished],
    [kill_fall], [freeze] or [ignite] it carries nothing, the sector is
    as it was, and the handler has made no [grab]; [freeze] hands the Owl
    to the base class with gravity already enabled. *)
Theorem handlers_leave_nothing_carried (env : Collaborators) (w : World) :
  let ends_carrying (w' : World) :=
    carried_object (owl w') = None /\
    sector_objects w' = sector_objects w /\
    exists new, calls w' = calls w ++ new /\ no_grab new = true in
  ends_carrying (exec (collision_squished env) w) /\
  ends_carrying (exec (kill_fall env) w) /\
  ends_carrying (exec (freeze env) w) /\
  ends_carrying (exec (ignite env) w) /\
  badguy (owl (exec (freeze env) w))
  = BadGuy_freeze env (enable_gravity true (badguy (owl w))).
Proof.
  intros ends_carrying. subst ends_carrying.
  rewrite collision_squished_world, kill_fall_world, freeze_world,
    ignite_world.
  unfold bounce_calls.
  cbn [owl badguy carried_object sector_objects calls].
  repeat split; eexists; (split; [reflexivity | ]);
    destruct (carried_object (owl w));
    try destruct (Sector_get_nearest_player env (m_bbox (badguy (owl w))));
    reflexivity.
Qed.

(** X17: [initialize] sets up the flight in the same way on every path,
    in the editor or not, whether the carried object is created or not:
    flying speed in the direction of the Owl, gravity off, the facing
    action; direction, bounding box, frozen flag, state, vertical velocity
    and acceleration are not touched, and a second call changes nothing
    more in the Owl's body. *)
Theorem initialize_sets_up_flight (env : Collaborators) (w : World) :
  let b := badguy (owl w) in
  let b' := badguy (owl (exec (initialize env) w)) in
  in_flight b' /\
  gravity_enabled (m_physic b') = false /\
  m_dir b' = m_dir b /\
  m_bbox b' = m_bbox b /\
  m_frozen b' = m_frozen b /\
  m_state b' = m_state b /\
  velocity_y (m_physic b') = velocity_y (m_physic b) /\
  acceleration_y (m_physic b') = acceleration_y (m_physic b) /\
  carried_obj_name (owl (exec (initialize env) w)) = carried_obj_name (owl w) /\
  badguy (owl (exec (initialize env) (exec (initialize env) w))) = b'.
Proof.
  intros b b'. subst b b'.
  rewrite !initialize_badguy, start_flying_idempotent.
  pose proof (step_name env OpInitialize w) as Hname.
  cbn [run_op] in Hname. rewrite Hname.
  split; [split; reflexivity | repeat split].
Qed.

(** ** The sign of the horizontal velocity *)




